(** * ChatList: the conversation-preview loader of [src/components/chat/ChatList.tsx]

    The component's effect [fetchChats] reads the current session, asks the
    backing store for the user's chat memberships and, chat by chat, for the
    other participant, that participant's profile, the latest message and the
    unread count; it assembles one [ChatPreview] per chat, sorts them and puts
    them in the component state.

    The development has three layers:
    - the backing store (three tables) and the five SELECT requests the
      component sends, with the PostgREST answer to each;
    - a small state-and-completion monad in which [fetchChats] is written
      statement by statement as in the source (early [return], [continue],
      [throw], [try]/[catch]/[finally]);
    - a pure description of what the loop assembles, proved equal to what the
      monadic code computes, and the properties of the loader. *)

From Stdlib Require Import ZArith List String Ascii Bool Lia Permutation.
Import ListNotations.
Open Scope string_scope.
Open Scope Z_scope.
Open Scope list_scope.

Set Implicit Arguments.

(** ** Rows of the backing store *)

(** Identifiers are UUID strings in the store. *)
Definition UserId := string.
Definition ChatId := string.

(** A row of [chat_participants]. *)
Record Participant := mkParticipant {
  cp_chat_id : ChatId;
  cp_user_id : UserId
}.

(** A row of [profiles]; both selected columns are nullable. *)
Record Profile := mkProfile {
  pr_id : UserId;
  pr_username : option string;
  pr_avatar_url : option string
}.

(** A row of [messages].  [msg_created_at] is the instant of the
    [timestamptz] column in milliseconds since the epoch: the ISO string sent
    over the wire and [new Date] of it denote that same instant. *)
Record Message := mkMessage {
  msg_chat_id : ChatId;
  msg_sender_id : UserId;
  msg_content : string;
  msg_created_at : Z;
  msg_read : bool
}.

Record Tables := mkTables {
  chat_participants : list Participant;
  profiles : list Profile;
  messages : list Message
}.

(** ** Requests and responses *)

(** The five requests [fetchChats] builds, named by the table and filters. *)
Inductive Query :=
| QParticipations (user : UserId)
    (* from chat_participants select chat_id where user_id = user *)
| QOtherParticipant (chat : ChatId) (user : UserId)
    (* from chat_participants select user_id
       where chat_id = chat and user_id <> user; single *)
| QProfile (user : UserId)
    (* from profiles select username, avatar_url where id = user; single *)
| QLastMessage (chat : ChatId)
    (* from messages select content, created_at, read where chat_id = chat
       order by created_at desc limit 1; single *)
| QUnreadCount (chat : ChatId) (user : UserId).
    (* from messages count exact, head
       where chat_id = chat and read = false and sender_id <> user *)

(** HTTP verbs of the REST interface; a [select] is a GET, or a HEAD when
    only the count is asked for. *)
Inductive Verb := GET | HEAD | POST | PATCH | DELETE.

Definition verb_of (q : Query) : Verb :=
  match q with
  | QUnreadCount _ _ => HEAD
  | _ => GET
  end.

Definition is_read (v : Verb) : bool :=
  match v with
  | GET | HEAD => true
  | _ => false
  end.

(** The error object of a response. *)
Record PostgrestError := mkError {
  err_code : string;
  err_message : string
}.

(** What the client resolves to: [{ data, error, count }]. *)
Record Response (A : Type) := mkResponse {
  data : option A;
  error : option PostgrestError;
  count : option Z
}.

Arguments mkResponse {A} _ _ _.

Definition ok {A} (a : A) : Response A := mkResponse (Some a) None None.
Definition failed {A} (e : PostgrestError) : Response A :=
  mkResponse None (Some e) None.

(** [.single()] answers with this error unless exactly one row matches. *)
Definition PGRST116 : PostgrestError :=
  mkError "PGRST116" "JSON object requested, multiple (or no) rows returned".

Definition single {A} (rows : list A) : Response A :=
  match rows with
  | [r] => ok r
  | _ => failed PGRST116
  end.

(** The backing service: the tables and, for each request, whether the
    service refuses it (network failure, policy, ...) and with which error.
    A request that is refused is refused every time it is sent. *)
Record Backend := mkBackend {
  tables : Tables;
  refuses : Query -> option PostgrestError
}.

(** *** Row selection *)

Definition participations_rows (t : Tables) (user : UserId) : list ChatId :=
  map cp_chat_id
      (filter (fun p => String.eqb (cp_user_id p) user) (chat_participants t)).

Definition other_participant_rows (t : Tables) (chat : ChatId) (user : UserId)
  : list UserId :=
  map cp_user_id
      (filter (fun p => String.eqb (cp_chat_id p) chat
                        && negb (String.eqb (cp_user_id p) user))
              (chat_participants t)).

Definition profile_rows (t : Tables) (user : UserId) : list Profile :=
  filter (fun p => String.eqb (pr_id p) user) (profiles t).

Definition chat_messages (t : Tables) (chat : ChatId) : list Message :=
  filter (fun m => String.eqb (msg_chat_id m) chat) (messages t).

(** [order by created_at desc limit 1]: the newest row, the earliest such row
    of the table when several share the newest instant. *)
Fixpoint newest (ms : list Message) : list Message :=
  match ms with
  | [] => []
  | m :: rest =>
      match newest rest with
      | [] => [m]
      | n :: _ => if msg_created_at n >? msg_created_at m then [n] else [m]
      end
  end.

Definition unread_rows (t : Tables) (chat : ChatId) (user : UserId)
  : list Message :=
  filter (fun m => String.eqb (msg_chat_id m) chat
                   && Bool.eqb (msg_read m) false
                   && negb (String.eqb (msg_sender_id m) user))
         (messages t).

(** *** The answer to each request *)

Definition answer {A} (b : Backend) (q : Query) (r : Response A) : Response A :=
  match refuses b q with
  | Some e => failed e
  | None => r
  end.

Definition select_participations (b : Backend) (user : UserId)
  : Response (list ChatId) :=
  answer b (QParticipations user) (ok (participations_rows (tables b) user)).

Definition select_other_participant (b : Backend) (chat : ChatId) (user : UserId)
  : Response UserId :=
  answer b (QOtherParticipant chat user)
         (single (other_participant_rows (tables b) chat user)).

Definition select_profile (b : Backend) (user : UserId) : Response Profile :=
  answer b (QProfile user) (single (profile_rows (tables b) user)).

Definition select_last_message (b : Backend) (chat : ChatId) : Response Message :=
  answer b (QLastMessage chat) (single (newest (chat_messages (tables b) chat))).

Definition select_unread_count (b : Backend) (chat : ChatId) (user : UserId)
  : Response unit :=
  answer b (QUnreadCount chat user)
         (mkResponse None None
            (Some (Z.of_nat (List.length (unread_rows (tables b) chat user))))).

(** ** The JavaScript side *)

(** A JavaScript number as the comparator sees it: a time value in
    milliseconds, or [NaN] (the time value of an invalid [Date]). *)
Definition number := option Z.
Definition NaN : number := None.

Definition number_sub (x y : number) : number :=
  match x, y with
  | Some a, Some b => Some (a - b)
  | _, _ => NaN
  end.

(** What the host decides: the local time zone, the clock convention of the
    default locale, and what [new Date(s).getTime()] gives for a string. *)
Record Runtime := mkRuntime {
  utc_offset_minutes : Z;
  hour12 : bool;
  Date_parse : string -> number
}.

Definition digit (d : Z) : ascii := ascii_of_nat (48 + Z.to_nat d).

Definition two_digits (n : Z) : string :=
  String (digit (n / 10)) (String (digit (n mod 10)) EmptyString).

(** [new Date(t).toLocaleTimeString([], { hour: '2-digit', minute: '2-digit' })]:
    the hour and minute of the local day, nothing of the date. *)
Definition toLocaleTimeString (rt : Runtime) (t : Z) : string :=
  let minutes := t / 60000 + utc_offset_minutes rt in
  let h := (minutes / 60) mod 24 in
  let m := minutes mod 60 in
  if hour12 rt then
    String.append (two_digits (if h mod 12 =? 0 then 12 else h mod 12))
      (String.append ":"
         (String.append (two_digits m) (if h <? 12 then " AM" else " PM")))
  else
    String.append (two_digits h) (String.append ":" (two_digits m)).

(** [interface ChatPreview]; the fields marked [?] are optional. *)
Record ChatPreview := mkChatPreview {
  id : string;
  username : string;
  avatar_url : option string;
  last_message : option string;
  last_time : option string;
  unread : option Z
}.

Record User := mkUser { user_id : UserId }.
Record Session := mkSession { user : User }.

(** [x || d] on an optional string: [null], [undefined] and [''] are falsy. *)
Definition or_string (x : option string) (d : string) : string :=
  match x with
  | None => d
  | Some s => if String.eqb s "" then d else s
  end.

(** [x || d] on an optional number: [null] and [0] are falsy. *)
Definition or_number (x : option Z) (d : Z) : Z :=
  match x with
  | None => d
  | Some n => if n =? 0 then d else n
  end.

(** [!x] on an optional string. *)
Definition not_string (x : option string) : bool :=
  match x with
  | None => true
  | Some s => String.eqb s ""
  end.

(** [new Date(x).getTime()] on an optional string; [new Date(undefined)] is
    an invalid date. *)
Definition getTime (rt : Runtime) (x : option string) : number :=
  match x with
  | Some s => Date_parse rt s
  | None => NaN
  end.

(** The comparator passed to [chatPreviews.sort]. *)
Definition compare_previews (rt : Runtime) (a b : ChatPreview) : number :=
  if not_string (last_time a) then Some 1
  else if not_string (last_time b) then Some (-1)
  else number_sub (getTime rt (last_time b)) (getTime rt (last_time a)).

(** *** [Array.prototype.sort]

    The standard asks for a stable sort and reads a [NaN] from the comparator
    as [+0]; the sequence of comparisons is left to the engine.  The model is
    the straight insertion sort: each element in turn moves left past the
    elements it compares strictly below. *)
Definition below {A} (cmp : A -> A -> number) (x y : A) : bool :=
  match cmp x y with
  | Some v => v <? 0
  | None => false
  end.

(** [sorted_rev] is the sorted prefix, last element first. *)
Fixpoint insert_left {A} (cmp : A -> A -> number) (x : A) (sorted_rev : list A)
  : list A :=
  match sorted_rev with
  | [] => [x]
  | y :: rest =>
      if below cmp x y then y :: insert_left cmp x rest else x :: sorted_rev
  end.

Definition sort {A} (cmp : A -> A -> number) (l : list A) : list A :=
  rev (fold_left (fun sorted_rev x => insert_left cmp x sorted_rev) l []).

(** ** Completions and the state of the world *)

(** What can be thrown and caught. *)
Inductive JsValue :=
| PostgrestThrown (e : PostgrestError)
| TypeError (msg : string).

(** Everything [fetchChats] can read or change: the service, the session of
    the auth client, the host, the three [useState] cells, and what it leaves
    behind: the requests sent (oldest first), the toasts and the console. *)
Record World := mkWorld {
  backend : Backend;
  auth_session : option Session;
  runtime : Runtime;
  chats : list ChatPreview;
  loading : bool;
  currentUser : option User;
  requests : list Query;
  toasts : list string;
  console : list (string * JsValue)
}.

Inductive Completion (A : Type) :=
| Normal (a : A)
| Return
| Throw (e : JsValue).

Arguments Normal {A} a.
Arguments Return {A}.
Arguments Throw {A} e.

Definition M (A : Type) := World -> Completion A * World.

Definition ret {A} (a : A) : M A := fun w => (Normal a, w).

Definition bind {A B} (m : M A) (k : A -> M B) : M B :=
  fun w =>
    match m w with
    | (Normal a, w') => k a w'
    | (Return, w') => (Return, w')
    | (Throw e, w') => (Throw e, w')
    end.

Declare Scope js_scope.
Delimit Scope js_scope with js.
Notation "x <- m ;; k" := (bind m (fun x => k))
  (at level 100, m at next level, right associativity) : js_scope.
Notation "m ;; k" := (bind m (fun _ => k))
  (at level 100, right associativity) : js_scope.
Open Scope js_scope.

Definition return_ {A} : M A := fun w => (Return, w).
Definition throw {A} (e : JsValue) : M A := fun w => (Throw e, w).

(** [try { body } catch (error) { handler }] *)
Definition try_catch {A} (body : M A) (handler : JsValue -> M A) : M A :=
  fun w =>
    match body w with
    | (Throw e, w') => handler e w'
    | r => r
    end.

(** [try { body } finally { final }]: [final] runs whatever the completion
    of [body]; an abrupt completion of [final] replaces that of [body]. *)
Definition try_finally {A} (body : M A) (final : M unit) : M A :=
  fun w =>
    match body w with
    | (c, w') =>
        match final w' with
        | (Normal _, w'') => (c, w'')
        | (Return, w'') => (Return, w'')
        | (Throw e, w'') => (Throw e, w'')
        end
    end.

(** The call of a function: a [return] inside ends the call normally. *)
Definition call (body : M unit) : M unit :=
  fun w =>
    match body w with
    | (Return, w') => (Normal tt, w')
    | r => r
    end.

(** [for (const x of xs) { body }], the loop state passed along; [continue]
    is the body ending with the state as it stands. *)
Fixpoint for_of {A S} (xs : list A) (body : A -> S -> M S) (s : S) : M S :=
  match xs with
  | [] => ret s
  | x :: rest => s' <- body x s ;; for_of rest body s'
  end.

Definition continue {S} (s : S) : M S := ret s.

(** Reading a property of [v]: a [TypeError] when [v] is [null]. *)
Definition deref {A} (v : option A) : M A :=
  match v with
  | Some a => ret a
  | None => throw (TypeError "Cannot read properties of null")
  end.

(** *** Primitive effects *)

Definition setChats (l : list ChatPreview) : M unit :=
  fun w => (Normal tt,
            mkWorld (backend w) (auth_session w) (runtime w) l (loading w)
                    (currentUser w) (requests w) (toasts w) (console w)).

Definition setLoading (b : bool) : M unit :=
  fun w => (Normal tt,
            mkWorld (backend w) (auth_session w) (runtime w) (chats w) b
                    (currentUser w) (requests w) (toasts w) (console w)).

Definition setCurrentUser (u : User) : M unit :=
  fun w => (Normal tt,
            mkWorld (backend w) (auth_session w) (runtime w) (chats w)
                    (loading w) (Some u) (requests w) (toasts w) (console w)).

Definition toast_error (msg : string) : M unit :=
  fun w => (Normal tt,
            mkWorld (backend w) (auth_session w) (runtime w) (chats w)
                    (loading w) (currentUser w) (requests w)
                    (toasts w ++ [msg]) (console w)).

Definition console_error (msg : string) (e : JsValue) : M unit :=
  fun w => (Normal tt,
            mkWorld (backend w) (auth_session w) (runtime w) (chats w)
                    (loading w) (currentUser w) (requests w) (toasts w)
                    (console w ++ [(msg, e)])).

(** [supabase.auth.getSession()], destructured to its [session]. *)
Definition getSession : M (option Session) :=
  fun w => (Normal (auth_session w), w).

Definition host : M Runtime := fun w => (Normal (runtime w), w).

(** Awaiting a query: the request is sent, the tables are read and the
    response comes back; nothing of the world changes but the log. *)
Definition await {A} (q : Query) (respond : Backend -> Response A)
  : M (Response A) :=
  fun w => (Normal (respond (backend w)),
            mkWorld (backend w) (auth_session w) (runtime w) (chats w)
                    (loading w) (currentUser w) (requests w ++ [q])
                    (toasts w) (console w)).

Definition is_some {A} (o : option A) : bool :=
  match o with Some _ => true | None => false end.

(** ** The component *)

(** The body of the [for] loop, one chat: [chatPreviews] is the array the
    loop pushes to. *)
Definition loop_body (session : Session) (chatId : ChatId)
           (chatPreviews : list ChatPreview) : M (list ChatPreview) :=
  let me := user_id (user session) in
  (* Encontrar o outro participante *)
  other <- await (QOtherParticipant chatId me)
                 (fun b => select_other_participant b chatId me) ;;
  if is_some (error other) then continue chatPreviews else
  otherParticipant_user_id <- deref (data other) ;;
  (* Obter detalhes do outro usuario *)
  profile <- await (QProfile otherParticipant_user_id)
                   (fun b => select_profile b otherParticipant_user_id) ;;
  if is_some (error profile) then continue chatPreviews else
  (* Obter ultima mensagem *)
  last <- await (QLastMessage chatId) (fun b => select_last_message b chatId) ;;
  let lastMessage := data last in
  (* Contar mensagens nao lidas *)
  unreadResponse <- await (QUnreadCount chatId me)
                          (fun b => select_unread_count b chatId me) ;;
  let unreadCount := count unreadResponse in
  userData <- deref (data profile) ;;
  rt <- host ;;
  let preview :=
    {| id := otherParticipant_user_id;
       username := or_string (pr_username userData) "Usuário";
       avatar_url := pr_avatar_url userData;
       last_message := Some (or_string (option_map msg_content lastMessage) "");
       last_time :=
         Some (match lastMessage with
               | Some m => toLocaleTimeString rt (msg_created_at m)
               | None => ""
               end);
       unread := Some (or_number unreadCount 0) |} in
  ret (chatPreviews ++ [preview]).

(** The [try] block of [fetchChats]. *)
Definition fetchChats_try : M unit :=
  (* Obter usuario atual *)
  session <- getSession ;;
  match session with
  | None =>
      setChats [] ;;
      setLoading false ;;
      return_
  | Some session =>
      setCurrentUser (user session) ;;
      (* Buscar chats que o usuario participa *)
      response <- await (QParticipations (user_id (user session)))
                     (fun b => select_participations b (user_id (user session))) ;;
      match error response with
      | Some participationsError => throw (PostgrestThrown participationsError)
      | None =>
          match data response with
          | None | Some [] =>
              setChats [] ;;
              setLoading false ;;
              return_
          | Some chatIds =>
              (* Para cada chat, encontrar o outro usuario *)
              chatPreviews <- for_of chatIds (loop_body session) [] ;;
              (* Ordenar chats por ultima mensagem (mais recente primeiro) *)
              rt <- host ;;
              setChats (sort (compare_previews rt) chatPreviews)
          end
      end
  end.

Definition fetchChats : M unit :=
  call
    (try_finally
       (try_catch
          fetchChats_try
          (fun error =>
             console_error "Erro ao carregar conversas:" error ;;
             toast_error "Não foi possível carregar suas conversas"))
       (setLoading false)).

(** The world when the component mounts: [useState([])], [useState(true)],
    [useState(null)], nothing sent or shown yet. *)
Definition mount (b : Backend) (s : option Session) (rt : Runtime) : World :=
  mkWorld b s rt [] true None [] [] [].

(** The world an action leaves. *)
Definition after {A} (m : M A) (w : World) : World := snd (m w).

(** The effect of [useEffect(() => { fetchChats(); }, [])]. *)
Definition ChatList_mounted (b : Backend) (s : option Session) (rt : Runtime)
  : World :=
  after fetchChats (mount b s rt).

(** ** A sample service

    User [A] is in six chats: with [B] (two messages from [B], unread, the
    last one "hi"), with [C] (no message), a group with [D] and [E], one with
    [F], who has no profile row, one where [A] is alone, and one with [G],
    whose profile has no username. *)
Module Sample.

Definition T1 : Z := 1704103200000. (* 2024-01-01T10:00:00Z *)

Definition sample_tables : Tables :=
  {| chat_participants :=
       [ mkParticipant "c1" "A"; mkParticipant "c1" "B";
         mkParticipant "c2" "A"; mkParticipant "c2" "C";
         mkParticipant "c3" "A"; mkParticipant "c3" "D";
         mkParticipant "c3" "E";
         mkParticipant "c4" "A"; mkParticipant "c4" "F";
         mkParticipant "c5" "A";
         mkParticipant "c6" "A"; mkParticipant "c6" "G" ];
     profiles :=
       [ mkProfile "A" (Some "ana") None;
         mkProfile "B" (Some "bia") (Some "b.png");
         mkProfile "C" (Some "caio") None;
         mkProfile "D" (Some "davi") None;
         mkProfile "E" (Some "eva") None;
         mkProfile "G" None None ];
     messages :=
       [ mkMessage "c1" "B" "oi" (T1 - 60000) false;
         mkMessage "c1" "A" "tudo bem?" (T1 - 30000) false;
         mkMessage "c1" "B" "hi" T1 false;
         mkMessage "c6" "G" "ola" (T1 - 3600000) true;
         mkMessage "c6" "A" "ate logo" (T1 + 3600000) false ] |}.

Definition up : Query -> option PostgrestError := fun _ => None.

Definition sample_backend : Backend := mkBackend sample_tables up.

Definition network_error : PostgrestError := mkError "" "Failed to fetch".

(** The service with the membership request refused. *)
Definition memberships_down : Backend :=
  mkBackend sample_tables
    (fun q => match q with
              | QParticipations _ => Some network_error
              | _ => None
              end).

(** The service with every unread count refused. *)
Definition counts_down : Backend :=
  mkBackend sample_tables
    (fun q => match q with
              | QUnreadCount _ _ => Some network_error
              | _ => None
              end).

Definition session_A : Session := mkSession (mkUser "A").

(** A host on UTC with a 24-hour clock; a string with a time of day and no
    date is not a date, so its time value is [NaN]. *)
Definition utc24 : Runtime := mkRuntime 0 false (fun _ => NaN).

End Sample.

(** ** What the loop assembles, as a function of the service *)

(** The preview a chat contributes, if any. *)
Definition preview_of (b : Backend) (rt : Runtime) (me : UserId) (chat : ChatId)
  : option ChatPreview :=
  let other := select_other_participant b chat me in
  match error other, data other with
  | None, Some o =>
      let profile := select_profile b o in
      match error profile, data profile with
      | None, Some userData =>
          let lastMessage := data (select_last_message b chat) in
          Some {| id := o;
                  username := or_string (pr_username userData) "Usuário";
                  avatar_url := pr_avatar_url userData;
                  last_message :=
                    Some (or_string (option_map msg_content lastMessage) "");
                  last_time :=
                    Some (match lastMessage with
                          | Some m => toLocaleTimeString rt (msg_created_at m)
                          | None => ""
                          end);
                  unread :=
                    Some (or_number (count (select_unread_count b chat me)) 0) |}
      | _, _ => None
      end
  | _, _ => None
  end.

(** The requests sent for a chat. *)
Definition queries_of (b : Backend) (me : UserId) (chat : ChatId) : list Query :=
  let other := select_other_participant b chat me in
  match error other, data other with
  | None, Some o =>
      if is_some (error (select_profile b o))
      then [QOtherParticipant chat me; QProfile o]
      else [QOtherParticipant chat me; QProfile o;
            QLastMessage chat; QUnreadCount chat me]
  | _, _ => [QOtherParticipant chat me]
  end.

Definition option_list {A} (o : option A) : list A :=
  match o with Some a => [a] | None => [] end.

Definition previews_of (b : Backend) (rt : Runtime) (me : UserId)
           (chatIds : list ChatId) : list ChatPreview :=
  flat_map (fun c => option_list (preview_of b rt me c)) chatIds.

(** The counterpart or the profile of the chat cannot be resolved. *)
Definition lookup_fails (b : Backend) (me : UserId) (chat : ChatId) : bool :=
  let other := select_other_participant b chat me in
  match error other, data other with
  | None, Some o => is_some (error (select_profile b o))
  | _, _ => true
  end.

(** The world with more requests in its log. *)
Definition logged (qs : list Query) (w : World) : World :=
  mkWorld (backend w) (auth_session w) (runtime w) (chats w) (loading w)
          (currentUser w) (requests w ++ qs) (toasts w) (console w).

(** The texts of the [catch] block. *)
Definition toast_text : string := "Não foi possível carregar suas conversas".
Definition console_text : string := "Erro ao carregar conversas:".

(** ** Notions the properties are stated with *)

(** The chats the user of the session belongs to, as the store lists them. *)
Definition memberships (b : Backend) (s : Session) : list ChatId :=
  participations_rows (tables b) (user_id (user s)).

(** A message that counts as unread for [me] in [chat]: it belongs to the
    chat, it is marked unread, and [me] did not send it. *)
Definition counts_as_unread (me : UserId) (chat : ChatId) (m : Message) : bool :=
  String.eqb (msg_chat_id m) chat
  && negb (msg_read m)
  && negb (String.eqb (msg_sender_id m) me).

(** The unread count a preview of [chat] is expected to show: the number of
    such messages, and zero when the count request fails. *)
Definition expected_unread (b : Backend) (me : UserId) (chat : ChatId) : Z :=
  match refuses b (QUnreadCount chat me) with
  | Some _ => 0
  | None => Z.of_nat (List.length (filter (counts_as_unread me chat)
                                          (messages (tables b))))
  end.

(** The preview shows a time. *)
Definition has_time (p : ChatPreview) : bool := negb (not_string (last_time p)).

(** The instant of the newest message of a chat, if it has one. *)
Definition last_instant (t : Tables) (chat : ChatId) : option Z :=
  match newest (chat_messages t chat) with
  | m :: _ => Some (msg_created_at m)
  | [] => None
  end.

(** The list names [x] somewhere before [y]. *)
Definition precedes {A} (x y : A) (l : list A) : Prop :=
  exists l1 l2 l3, l = (l1 ++ x :: l2 ++ y :: l3).

(** *** Read-only actions

    An action is read-only when it hands the service back as it found it and
    every request it adds to the log is a GET or a HEAD. *)

Definition read_request (q : Query) : Prop := is_read (verb_of q) = true.

Definition reads_only {A} (m : M A) : Prop :=
  forall w,
    backend (after m w) = backend w /\
    exists qs, requests (after m w) = (requests w ++ qs)
               /\ Forall read_request qs.

(** An action that touches neither the service nor the log. *)
Definition silent {A} (m : M A) : Prop :=
  forall w, backend (after m w) = backend w
            /\ requests (after m w) = requests w.

(** ** Two chats, the second one with the more recent message

    User [A] talks to [B] in chat [c1] and to [C] in chat [c2]; the store
    lists [c1] first.  [B] wrote at 09:00 and [C] an hour later ([same_day]),
    or [C] wrote a day after [B], at the same time of day ([next_day]). *)
Module Recency.

Definition nine : Z := 1704099600000.   (* 2024-01-01T09:00:00Z *)
Definition ten : Z := 1704103200000.    (* 2024-01-01T10:00:00Z *)
Definition day : Z := 86400000.

Definition two_chats (tB tC : Z) : Tables :=
  {| chat_participants :=
       [ mkParticipant "c1" "A"; mkParticipant "c1" "B";
         mkParticipant "c2" "A"; mkParticipant "c2" "C" ];
     profiles :=
       [ mkProfile "B" (Some "bia") None; mkProfile "C" (Some "caio") None ];
     messages :=
       [ mkMessage "c1" "B" "bom dia" tB true;
         mkMessage "c2" "C" "oi" tC true ] |}.

Definition same_day : Backend := mkBackend (two_chats nine ten) (fun _ => None).
Definition next_day : Backend :=
  mkBackend (two_chats nine (nine + day)) (fun _ => None).

Definition session_A : Session := mkSession (mkUser "A").

Definition preview_B (t : string) : ChatPreview :=
  mkChatPreview "B" "bia" None (Some "bom dia") (Some t) (Some 0).
Definition preview_C (t : string) : ChatPreview :=
  mkChatPreview "C" "caio" None (Some "oi") (Some t) (Some 0).

End Recency.

(** ** What [ChatList] renders

    The three returns of the component: the spinner while [loading], the
    empty state when there is no chat, otherwise one link per chat. *)

(** [x ? ... : ...] and [x && ...] on an optional string. *)
Definition truthy (x : option string) : bool := negb (not_string x).

(** [x > 0] on an optional number; [undefined > 0] is false. *)
Definition positive (x : option Z) : bool :=
  match x with
  | Some n => 0 <? n
  | None => false
  end.

(** The round picture of a row: the image, or the first letter of the name
    in upper case ([AvatarInitial name] stands for
    [name.charAt(0).toUpperCase()]). *)
Inductive Avatar :=
| AvatarImage (src alt : string)
| AvatarInitial (name : string).

(** What a row shows; [None] is a part that is not rendered. *)
Record Row := mkRow {
  row_key : string;
  row_to : string;
  row_avatar : Avatar;
  row_badge : option Z;
  row_title : string;
  row_time : option string;
  row_message : option string
}.

Definition render_row (chat : ChatPreview) : Row :=
  {| row_key := id chat;
     row_to := String.append "/chat/" (id chat);
     row_avatar :=
       if truthy (avatar_url chat)
       then AvatarImage (or_string (avatar_url chat) "") (username chat)
       else AvatarInitial (username chat);
     row_badge := if positive (unread chat) then unread chat else None;
     row_title := username chat;
     row_time := if truthy (last_time chat) then last_time chat else None;
     row_message :=
       if truthy (last_message chat) then last_message chat else None |}.

Inductive View :=
| Spinner
| EmptyState
| ChatRows (rows : list Row).

Definition render (w : World) : View :=
  if loading w then Spinner
  else if (List.length (chats w) =? 0)%nat then EmptyState
  else ChatRows (map render_row (chats w)).

(** The counterpart a chat resolves to, when both lookups succeed. *)
Definition counterpart_of (b : Backend) (me : UserId) (chat : ChatId)
  : option UserId :=
  if lookup_fails b me chat then None
  else data (select_other_participant b chat me).

(** User [A] shares two chats with [B]. *)
Definition shared_twice : Backend :=
  mkBackend
    {| chat_participants :=
         [ mkParticipant "c1" "A"; mkParticipant "c1" "B";
           mkParticipant "c2" "A"; mkParticipant "c2" "B" ];
       profiles := [ mkProfile "B" (Some "bia") None ];
       messages := [] |}
    (fun _ => None).

(** The sample service with the last-message requests refused. *)
Definition last_messages_down : Backend :=
  mkBackend Sample.sample_tables
    (fun q => match q with
              | QLastMessage _ => Some Sample.network_error
              | _ => None
              end).

(** * ReactionMenu: [src/components/ReactionMenu.tsx]

    The menu keeps two state cells, [mounted] and [imagesLoaded], and two
    effects: one follows [isOpen] and delays the unmounting by 200 ms, the
    other preloads the images of [reactionsList] and counts them as they
    settle, with a 2000 ms fallback.  Timers and image events are modelled as
    events that may arrive in any order; a timer fires only while pending. *)
Module ReactionMenu.

(** An entry of [reactionsList]; the list itself comes from
    [utils/emojisPosts] and is a parameter here. *)
Record Reaction := mkReaction {
  emoji : string;
  type : string;
  label : string
}.

Record Menu := mkMenu {
  reactionsList : list Reaction;
  (* props *)
  isOpen : bool;
  currentReaction : option string;
  (* useState *)
  mounted : bool;
  imagesLoaded : bool;
  (* [let loadedCount] of the preload effect, shared by the handlers *)
  loadedCount : Z;
  (* pending timers: the 200 ms one and the 2000 ms one *)
  close_timer : bool;
  fallback_timer : bool;
  (* the component is in the tree; state setters do nothing afterwards *)
  alive : bool;
  console : list string
}.

Inductive Event :=
| SetIsOpen (b : bool)               (* the parent passes a new [isOpen] *)
| SetCurrentReaction (r : option string)
| CloseTimer                         (* the 200 ms timer fires *)
| FallbackTimer                      (* the 2000 ms timer fires *)
| ImageLoad (src : string)           (* [img.onload] *)
| ImageError (src : string)          (* [img.onerror] *)
| Unmount.

Definition setMounted (v : bool) (m : Menu) : Menu :=
  if alive m then
    mkMenu (reactionsList m) (isOpen m) (currentReaction m) v (imagesLoaded m)
           (loadedCount m) (close_timer m) (fallback_timer m) (alive m)
           (console m)
  else m.

Definition setImagesLoaded (v : bool) (m : Menu) : Menu :=
  if alive m then
    mkMenu (reactionsList m) (isOpen m) (currentReaction m) (mounted m) v
           (loadedCount m) (close_timer m) (fallback_timer m) (alive m)
           (console m)
  else m.

Definition set_close_timer (v : bool) (m : Menu) : Menu :=
  mkMenu (reactionsList m) (isOpen m) (currentReaction m) (mounted m)
         (imagesLoaded m) (loadedCount m) v (fallback_timer m) (alive m)
         (console m).

Definition set_fallback_timer (v : bool) (m : Menu) : Menu :=
  mkMenu (reactionsList m) (isOpen m) (currentReaction m) (mounted m)
         (imagesLoaded m) (loadedCount m) (close_timer m) v (alive m)
         (console m).

Definition set_isOpen (v : bool) (m : Menu) : Menu :=
  mkMenu (reactionsList m) v (currentReaction m) (mounted m)
         (imagesLoaded m) (loadedCount m) (close_timer m) (fallback_timer m)
         (alive m) (console m).

Definition set_currentReaction (r : option string) (m : Menu) : Menu :=
  mkMenu (reactionsList m) (isOpen m) r (mounted m)
         (imagesLoaded m) (loadedCount m) (close_timer m) (fallback_timer m)
         (alive m) (console m).

Definition console_error (line : string) (m : Menu) : Menu :=
  mkMenu (reactionsList m) (isOpen m) (currentReaction m) (mounted m)
         (imagesLoaded m) (loadedCount m) (close_timer m) (fallback_timer m)
         (alive m) (console m ++ [line]).

(** The first effect, run for the current [isOpen]. *)
Definition open_effect (m : Menu) : Menu :=
  if isOpen m then setMounted true m
  else set_close_timer true m.

(** Its cleanup: [clearTimeout(timer)], returned by the closing branch only. *)
Definition open_cleanup (m : Menu) : Menu :=
  if isOpen m then m else set_close_timer false m.

(** [loadedCount++; if (loadedCount === totalImages) setImagesLoaded(true)] *)
Definition count_image (m : Menu) : Menu :=
  let m' :=
    mkMenu (reactionsList m) (isOpen m) (currentReaction m) (mounted m)
           (imagesLoaded m) (loadedCount m + 1) (close_timer m)
           (fallback_timer m) (alive m) (console m) in
  if loadedCount m' =? Z.of_nat (List.length (reactionsList m'))
  then setImagesLoaded true m'
  else m'.

(** The component after its first render and effects. *)
Definition mount (rl : list Reaction) (open : bool) (current : option string)
  : Menu :=
  open_effect (mkMenu rl open current false false 0 false true true []).

Definition step (m : Menu) (e : Event) : Menu :=
  match e with
  | SetIsOpen b =>
      if negb (alive m) then m
      else if Bool.eqb b (isOpen m) then m
      else open_effect (set_isOpen b (open_cleanup m))
  | SetCurrentReaction r =>
      if alive m then set_currentReaction r m else m
  | CloseTimer =>
      if close_timer m then setMounted false (set_close_timer false m) else m
  | FallbackTimer =>
      (* the callback closes over the [imagesLoaded] of the first render,
         which is [false]: the test [!imagesLoaded] always passes *)
      if fallback_timer m
      then setImagesLoaded true (set_fallback_timer false m)
      else m
  | ImageLoad _ => count_image m
  | ImageError src =>
      count_image (console_error (String.append "Failed to load emoji: " src) m)
  | Unmount =>
      let m' := set_fallback_timer false (open_cleanup m) in
      mkMenu (reactionsList m') (isOpen m') (currentReaction m') (mounted m')
             (imagesLoaded m') (loadedCount m') (close_timer m')
             (fallback_timer m') false (console m')
  end.

Definition run (es : list Event) (m : Menu) : Menu := fold_left step es m.

(** A button of the menu; [on_click] is the argument [onSelect] gets. *)
Record Button := mkButton {
  key : string;
  img_src : string;
  img_alt : string;
  caption : string;
  highlighted : bool;
  on_click : string
}.

(** [currentReaction === type] *)
Definition is_current (current : option string) (t : string) : bool :=
  match current with
  | Some c => String.eqb c t
  | None => false
  end.

Definition button (current : option string) (r : Reaction) : Button :=
  mkButton (type r) (emoji r) (label r) (label r)
           (is_current current (type r)) (type r).

(** What is rendered: nothing, or the panel (opaque when open, transparent
    while closing) with its buttons. *)
Definition render (m : Menu) : option (bool * list Button) :=
  if negb (mounted m) then None
  else Some (isOpen m, map (button (currentReaction m)) (reactionsList m)).

Definition is_image_event (e : Event) : bool :=
  match e with
  | ImageLoad _ | ImageError _ => true
  | _ => false
  end.

Definition error_line (e : Event) : list string :=
  match e with
  | ImageError src => [String.append "Failed to load emoji: " src]
  | _ => []
  end.

(** How the timers stand to the rest of the state: an open menu is mounted
    and has no closing timer; a closed one is unmounted or about to be; a
    component out of the tree has no timer left. *)
Definition timers_agree (m : Menu) : Prop :=
  (alive m = true ->
   (isOpen m = true -> mounted m = true /\ close_timer m = false)
   /\ (isOpen m = false -> close_timer m = true \/ mounted m = false))
  /\ (alive m = false -> close_timer m = false /\ fallback_timer m = false).

(** The number of images that have settled among the events. *)
Definition settled (es : list Event) : Z :=
  Z.of_nat (List.length (filter is_image_event es)).

Definition is_unmount (e : Event) : bool :=
  match e with Unmount => true | _ => false end.

Definition is_fallback (e : Event) : bool :=
  match e with FallbackTimer => true | _ => false end.

Definition sample_reactions : list Reaction :=
  [ mkReaction "/emojis/like.png" "like" "Curtir";
    mkReaction "/emojis/love.png" "love" "Amei";
    mkReaction "/emojis/haha.png" "haha" "Haha" ].

End ReactionMenu.

(** ** Responses are well formed *)

Lemma single_cases {A} (rows : list A) :
  (exists r, rows = [r] /\ single rows = ok r) \/
  (List.length rows <> 1%nat /\ single rows = failed PGRST116).
Proof.
  destruct rows as [|r [|r' rest]]; simpl.
  - right; split; [discriminate | reflexivity].
  - left; exists r; split; reflexivity.
  - right; split; [discriminate | reflexivity].
Qed.

(** A [.single()] response has an error or a row, never both or neither. *)
Lemma answer_single_cases {A} (b : Backend) (q : Query) (rows : list A) :
  (exists r, error (answer b q (single rows)) = None
             /\ data (answer b q (single rows)) = Some r
             /\ rows = [r] /\ refuses b q = None) \/
  (exists e, error (answer b q (single rows)) = Some e
             /\ data (answer b q (single rows)) = None).
Proof.
  unfold answer.
  destruct (refuses b q) as [e|].
  - right; exists e; split; reflexivity.
  - destruct (single_cases rows) as [[r [-> ->]] | [_ ->]].
    + left; exists r; repeat split; reflexivity.
    + right; exists PGRST116; split; reflexivity.
Qed.

Lemma logged_nil w : logged [] w = w.
Proof. destruct w; unfold logged; simpl; rewrite app_nil_r; reflexivity. Qed.

Lemma logged_app qs qs' w : logged qs' (logged qs w) = logged (qs ++ qs') w.
Proof. unfold logged; simpl; rewrite <- app_assoc; reflexivity. Qed.

(** ** The loop computes [previews_of] *)

Lemma loop_body_spec session chat acc w :
  loop_body session chat acc w =
  (Normal (acc ++ option_list
                    (preview_of (backend w) (runtime w)
                                (user_id (user session)) chat)),
   logged (queries_of (backend w) (user_id (user session)) chat) w).
Proof.
  unfold loop_body, preview_of, queries_of, select_other_participant,
    select_profile.
  set (me := user_id (user session)).
  unfold bind at 1, await at 1; cbn [backend].
  destruct (answer_single_cases (backend w) (QOtherParticipant chat me)
              (other_participant_rows (tables (backend w)) chat me))
    as [(o & He & Hd & _) | (e & He & Hd)]; rewrite He, Hd; cbn.
  - destruct (answer_single_cases (backend w) (QProfile o)
                (profile_rows (tables (backend w)) o))
      as [(p & He' & Hd' & _) | (e & He' & Hd')]; rewrite He', Hd'; cbn.
    + unfold logged; cbn. rewrite <- !app_assoc; reflexivity.
    + unfold logged, continue, ret; cbn.
      rewrite <- !app_assoc, app_nil_r; reflexivity.
  - unfold logged, continue, ret; cbn. rewrite app_nil_r; reflexivity.
Qed.

Lemma for_of_loop_body session chatIds : forall acc w,
  for_of chatIds (loop_body session) acc w =
  (Normal (acc ++ previews_of (backend w) (runtime w)
                              (user_id (user session)) chatIds),
   logged (flat_map (queries_of (backend w) (user_id (user session))) chatIds) w).
Proof.
  induction chatIds as [|c rest IH]; intros acc w.
  - cbn. rewrite app_nil_r, logged_nil. reflexivity.
  - cbn [for_of]. unfold bind. rewrite loop_body_spec, IH.
    cbn [backend runtime logged].
    unfold previews_of; cbn [flat_map].
    rewrite <- app_assoc. f_equal.
    unfold logged; cbn. rewrite <- app_assoc. reflexivity.
Qed.

(** ** What [fetchChats] does, path by path *)

(** No session: the list is emptied, nothing is sent. *)
Lemma fetchChats_no_session w :
  auth_session w = None ->
  fetchChats w =
  (Normal tt,
   mkWorld (backend w) None (runtime w) [] false (currentUser w)
           (requests w) (toasts w) (console w)).
Proof.
  intros H.
  unfold fetchChats, call, try_finally, try_catch, fetchChats_try, bind,
    getSession.
  rewrite H. cbn. rewrite H. reflexivity.
Qed.

(** The membership request is refused: the error is thrown, caught, logged
    and shown; [setChats] is not reached. *)
Lemma fetchChats_refused w s e :
  auth_session w = Some s ->
  refuses (backend w) (QParticipations (user_id (user s))) = Some e ->
  fetchChats w =
  (Normal tt,
   mkWorld (backend w) (Some s) (runtime w) (chats w) false (Some (user s))
           (requests w ++ [QParticipations (user_id (user s))])
           (toasts w ++ [toast_text])
           (console w ++ [(console_text, PostgrestThrown e)])).
Proof.
  intros Hs Hr.
  unfold fetchChats, call, try_finally, try_catch, fetchChats_try, bind,
    getSession.
  rewrite Hs. cbn.
  unfold select_participations, answer. rewrite Hs, Hr. reflexivity.
Qed.

(** The membership request is answered: every chat is processed, the
    previews are sorted and stored. *)
Lemma fetchChats_answered w s :
  auth_session w = Some s ->
  refuses (backend w) (QParticipations (user_id (user s))) = None ->
  let me := user_id (user s) in
  let chatIds := participations_rows (tables (backend w)) me in
  fetchChats w =
  (Normal tt,
   mkWorld (backend w) (Some s) (runtime w)
           (sort (compare_previews (runtime w))
                 (previews_of (backend w) (runtime w) me chatIds))
           false (Some (user s))
           (requests w ++ QParticipations me
                          :: flat_map (queries_of (backend w) me) chatIds)
           (toasts w) (console w)).
Proof.
  intros Hs Hr me chatIds.
  unfold fetchChats, call, try_finally, try_catch, fetchChats_try, bind,
    getSession.
  rewrite Hs. cbn.
  unfold select_participations, answer. rewrite Hr. cbn.
  fold me. fold chatIds.
  destruct chatIds as [|c rest] eqn:E.
  - cbn. rewrite Hs. reflexivity.
  - rewrite for_of_loop_body. cbn. rewrite Hs.
    rewrite <- app_assoc. reflexivity.
Qed.

(** [fetchChats] always completes, and completes normally. *)
Lemma fetchChats_completes w : fst (fetchChats w) = Normal tt.
Proof.
  destruct (auth_session w) as [s|] eqn:Hs.
  - destruct (refuses (backend w) (QParticipations (user_id (user s))))
      as [e|] eqn:Hr.
    + rewrite (fetchChats_refused w Hs Hr). reflexivity.
    + rewrite (fetchChats_answered w Hs Hr). reflexivity.
  - rewrite (fetchChats_no_session w Hs). reflexivity.
Qed.

(** ** Frames: what [fetchChats] leaves alone *)

(** The three paths of [fetchChats], each rewritten to the world it leaves. *)
Ltac by_path w :=
  unfold after;
  let s := fresh "s" in
  let e := fresh "e" in
  let Hs := fresh "Hs" in
  let Hr := fresh "Hr" in
  destruct (auth_session w) as [s|] eqn:Hs;
  [ destruct (refuses (backend w) (QParticipations (user_id (user s))))
      as [e|] eqn:Hr;
    [ rewrite (fetchChats_refused w Hs Hr)
    | rewrite (fetchChats_answered w Hs Hr) ]
  | rewrite (fetchChats_no_session w Hs) ].

Lemma fetchChats_auth_session w :
  auth_session (after fetchChats w) = auth_session w.
Proof. by_path w; reflexivity. Qed.

Lemma fetchChats_runtime w : runtime (after fetchChats w) = runtime w.
Proof. by_path w; reflexivity. Qed.

(** The list the component holds after a load, from what it held before. *)
Lemma fetchChats_chats w :
  chats (after fetchChats w) =
  match auth_session w with
  | None => []
  | Some s =>
      match refuses (backend w) (QParticipations (user_id (user s))) with
      | Some _ => chats w
      | None => sort (compare_previews (runtime w))
                     (previews_of (backend w) (runtime w) (user_id (user s))
                                  (memberships (backend w) s))
      end
  end.
Proof. by_path w; reflexivity. Qed.

(** ** Only reads reach the service

    [reads_only] is closed under the constructs [fetchChats] is built from. *)

Lemma silent_reads_only {A} (m : M A) : silent m -> reads_only m.
Proof.
  intros H w. destruct (H w) as [Hb Hq]. split; [exact Hb|].
  exists []. rewrite app_nil_r. split; [exact Hq | constructor].
Qed.

Lemma every_query_reads q : read_request q.
Proof. destruct q; reflexivity. Qed.

Lemma reads_only_await {A} q (respond : Backend -> Response A) :
  reads_only (await q respond).
Proof.
  intros w. split; [reflexivity|].
  exists [q]. split; [reflexivity|].
  constructor; [apply every_query_reads | constructor].
Qed.

Lemma reads_only_bind {A B} (m : M A) (k : A -> M B) :
  reads_only m -> (forall a, reads_only (k a)) -> reads_only (bind m k).
Proof.
  intros Hm Hk w. specialize (Hm w). unfold after, bind in *.
  destruct (m w) as [[a| |e] w1]; cbn [snd] in *; try exact Hm.
  destruct Hm as [Hb (qs & Hq & Hr)].
  destruct (Hk a w1) as [Hb' (qs' & Hq' & Hr')]. unfold after in *.
  split; [congruence|].
  exists (qs ++ qs'). split.
  - rewrite Hq', Hq, app_assoc. reflexivity.
  - apply Forall_app. split; assumption.
Qed.

Lemma reads_only_try_catch {A} (body : M A) handler :
  reads_only body -> (forall e, reads_only (handler e)) ->
  reads_only (try_catch body handler).
Proof.
  intros Hm Hk w. specialize (Hm w). unfold after, try_catch in *.
  destruct (body w) as [[a| |e] w1]; cbn [snd] in *; try exact Hm.
  destruct Hm as [Hb (qs & Hq & Hr)].
  destruct (Hk e w1) as [Hb' (qs' & Hq' & Hr')]. unfold after in *.
  split; [congruence|].
  exists (qs ++ qs'). split.
  - rewrite Hq', Hq, app_assoc. reflexivity.
  - apply Forall_app. split; assumption.
Qed.

Lemma reads_only_try_finally {A} (body : M A) final :
  reads_only body -> reads_only final -> reads_only (try_finally body final).
Proof.
  intros Hm Hf w. specialize (Hm w). unfold after, try_finally in *.
  destruct (body w) as [c w1]; cbn [snd] in *.
  destruct Hm as [Hb (qs & Hq & Hr)].
  destruct (Hf w1) as [Hb' (qs' & Hq' & Hr')]. unfold after in *.
  assert (backend (snd (final w1)) = backend w
          /\ exists qs0, requests (snd (final w1)) = (requests w ++ qs0)
                         /\ Forall read_request qs0) as Hgoal.
  { split; [congruence|].
    exists (qs ++ qs'). split.
    - rewrite Hq', Hq, app_assoc. reflexivity.
    - apply Forall_app. split; assumption. }
  destruct (final w1) as [[u| |e] w2]; exact Hgoal.
Qed.

Lemma reads_only_call body : reads_only body -> reads_only (call body).
Proof.
  intros Hm w. specialize (Hm w). unfold after, call in *.
  destruct (body w) as [[a| |e] w1]; exact Hm.
Qed.

Lemma reads_only_for_of {A S} (xs : list A) (body : A -> S -> M S) :
  (forall x s, reads_only (body x s)) -> forall s, reads_only (for_of xs body s).
Proof.
  intros Hb. induction xs as [|x rest IH]; intros s; cbn [for_of].
  - apply silent_reads_only. intros w. split; reflexivity.
  - apply reads_only_bind; [apply Hb | exact IH].
Qed.

Lemma silent_ret {A} (a : A) : silent (ret a).
Proof. intros w; split; reflexivity. Qed.
Lemma silent_return {A} : silent (@return_ A).
Proof. intros w; split; reflexivity. Qed.
Lemma silent_throw {A} e : silent (@throw A e).
Proof. intros w; split; reflexivity. Qed.
Lemma silent_deref {A} (v : option A) : silent (deref v).
Proof. destruct v; intros w; split; reflexivity. Qed.
Lemma silent_setChats l : silent (setChats l).
Proof. intros w; split; reflexivity. Qed.
Lemma silent_setLoading b : silent (setLoading b).
Proof. intros w; split; reflexivity. Qed.
Lemma silent_setCurrentUser u : silent (setCurrentUser u).
Proof. intros w; split; reflexivity. Qed.
Lemma silent_toast_error msg : silent (toast_error msg).
Proof. intros w; split; reflexivity. Qed.
Lemma silent_console_error msg e : silent (console_error msg e).
Proof. intros w; split; reflexivity. Qed.
Lemma silent_getSession : silent getSession.
Proof. intros w; split; reflexivity. Qed.
Lemma silent_host : silent host.
Proof. intros w; split; reflexivity. Qed.

Create HintDb reads discriminated.
#[local] Hint Resolve silent_ret silent_return silent_throw silent_deref
  silent_setChats silent_setLoading silent_setCurrentUser silent_toast_error
  silent_console_error silent_getSession silent_host : reads.
#[local] Hint Resolve reads_only_await : reads.

(** Walks an action: binds, branches and the leaves above. *)
Ltac reads :=
  repeat first
    [ apply reads_only_bind; [| intros ?]
    | apply reads_only_await
    | apply silent_reads_only; solve [auto with reads]
    | match goal with
      | |- reads_only (if ?c then _ else _) => destruct c
      | |- reads_only (match ?x with _ => _ end) => destruct x
      | |- reads_only (continue _) => unfold continue
      end ].

Lemma reads_only_loop_body session chat acc :
  reads_only (loop_body session chat acc).
Proof. unfold loop_body. reads. Qed.

Lemma reads_only_fetchChats_try : reads_only fetchChats_try.
Proof.
  unfold fetchChats_try. reads.
  apply reads_only_for_of. intros; apply reads_only_loop_body.
Qed.

Lemma reads_only_fetchChats : reads_only fetchChats.
Proof.
  unfold fetchChats.
  apply reads_only_call, reads_only_try_finally.
  - apply reads_only_try_catch; [apply reads_only_fetchChats_try|].
    intros e. reads.
  - reads.
Qed.

(** ** The sort *)

Lemma insert_left_perm {A} (cmp : A -> A -> number) x l :
  Permutation (insert_left cmp x l) (x :: l).
Proof.
  induction l as [|y rest IH]; cbn.
  - apply Permutation_refl.
  - destruct (below cmp x y).
    + eapply perm_trans; [apply perm_skip, IH | apply perm_swap].
    + apply Permutation_refl.
Qed.

Lemma fold_insert_perm {A} (cmp : A -> A -> number) l : forall acc,
  Permutation (fold_left (fun s x => insert_left cmp x s) l acc) (l ++ acc).
Proof.
  induction l as [|x rest IH]; intros acc; cbn.
  - apply Permutation_refl.
  - eapply perm_trans; [apply IH|].
    eapply perm_trans; [apply Permutation_app_head, insert_left_perm|].
    apply Permutation_sym, Permutation_middle.
Qed.

(** [sort] rearranges, it neither drops nor invents. *)
Lemma sort_perm {A} (cmp : A -> A -> number) l : Permutation (sort cmp l) l.
Proof.
  unfold sort.
  eapply perm_trans; [apply Permutation_sym, Permutation_rev|].
  eapply perm_trans; [apply fold_insert_perm|].
  rewrite app_nil_r. apply Permutation_refl.
Qed.

Lemma sort_length {A} (cmp : A -> A -> number) l :
  List.length (sort cmp l) = List.length l.
Proof. apply Permutation_length, sort_perm. Qed.

Lemma sort_In {A} (cmp : A -> A -> number) l x : In x (sort cmp l) <-> In x l.
Proof.
  split; apply Permutation_in; [| apply Permutation_sym]; apply sort_perm.
Qed.

Lemma sort_pair {A} (cmp : A -> A -> number) a b :
  below cmp b a = false -> sort cmp [a; b] = [a; b].
Proof. intros H. unfold sort. cbn. rewrite H. reflexivity. Qed.

(** When the comparator tells nothing but "late after early", the sort is
    the stable partition: the early elements, then the late ones. *)
Section Partition.

Context {A : Type}.
Variable cmp : A -> A -> number.
Variable late : A -> bool.

Hypothesis late_stays : forall x y, late x = true -> below cmp x y = false.
Hypothesis early_passes_late :
  forall x y, late x = false -> late y = true -> below cmp x y = true.





Hypothesis early_stops_at_early :
  forall x y, late x = false -> late y = false -> below cmp x y = false.




End Partition.



(** ** Time of day forgets the day *)

Lemma toLocaleTimeString_next_day rt t :
  toLocaleTimeString rt (t + 86400000) = toLocaleTimeString rt t.
Proof.
  unfold toLocaleTimeString.
  replace ((t + 86400000) / 60000 + utc_offset_minutes rt)
    with ((t / 60000 + utc_offset_minutes rt) + 24 * 60).
  2:{ change 86400000 with (1440 * 60000).
      rewrite Z.div_add by discriminate. lia. }
  set (minutes := t / 60000 + utc_offset_minutes rt).
  rewrite Z.div_add by discriminate.
  rewrite (Z.mod_add minutes 24 60) by discriminate.
  replace (minutes / 60 + 24) with (minutes / 60 + 1 * 24) by lia.
  rewrite (Z.mod_add (minutes / 60) 1 24) by discriminate.
  reflexivity.
Qed.

(** ** Facts about one chat *)

(** Either the lookups of a chat fail and it gives no preview, or both
    succeed on exactly one row each and the preview is assembled from them. *)
Lemma preview_of_cases b rt me chat :
  (lookup_fails b me chat = true /\ preview_of b rt me chat = None) \/
  (exists o userData,
      lookup_fails b me chat = false
      /\ other_participant_rows (tables b) chat me = [o]
      /\ data (select_other_participant b chat me) = Some o
      /\ data (select_profile b o) = Some userData
      /\ preview_of b rt me chat =
         Some {| id := o;
                 username := or_string (pr_username userData) "Usuário";
                 avatar_url := pr_avatar_url userData;
                 last_message :=
                   Some (or_string
                           (option_map msg_content
                                       (data (select_last_message b chat))) "");
                 last_time :=
                   Some (match data (select_last_message b chat) with
                         | Some m => toLocaleTimeString rt (msg_created_at m)
                         | None => ""
                         end);
                 unread :=
                   Some (or_number (count (select_unread_count b chat me)) 0) |}).
Proof.
  unfold lookup_fails, preview_of, select_other_participant, select_profile.
  destruct (answer_single_cases b (QOtherParticipant chat me)
              (other_participant_rows (tables b) chat me))
    as [(o & He & Hd & Hrows & _) | (e & He & Hd)]; cbv zeta;
    rewrite He, ?Hd; cbv beta iota.
  - destruct (answer_single_cases b (QProfile o) (profile_rows (tables b) o))
      as [(p & He' & Hd' & _) | (e & He' & Hd')]; rewrite He', ?Hd';
      cbv beta iota.
    + right. exists o, p. repeat split; try assumption; reflexivity.
    + left. split; reflexivity.
  - left. split; reflexivity.
Qed.

Lemma lookup_fails_no_preview b rt me chat :
  lookup_fails b me chat = true -> preview_of b rt me chat = None.
Proof.
  intros H. destruct (preview_of_cases b rt me chat) as [[_ Hp] | Hex].
  - exact Hp.
  - destruct Hex as (o & u & Hf & _). congruence.
Qed.

Lemma In_previews_of b rt me chatIds p :
  In p (previews_of b rt me chatIds) <->
  exists chat, In chat chatIds /\ preview_of b rt me chat = Some p.
Proof.
  unfold previews_of. rewrite in_flat_map. split.
  - intros (c & Hc & Hp). exists c. split; [exact Hc|].
    destruct (preview_of b rt me c) as [q|]; cbn in Hp; [|contradiction].
    destruct Hp as [-> | []]. reflexivity.
  - intros (c & Hc & Hp). exists c. split; [exact Hc|].
    rewrite Hp. left. reflexivity.
Qed.

(** Every chat either gives a preview or is one whose lookups fail. *)
Lemma previews_of_length b rt me chatIds :
  (List.length (previews_of b rt me chatIds)
   + List.length (filter (lookup_fails b me) chatIds)
   = List.length chatIds)%nat.
Proof.
  unfold previews_of.
  induction chatIds as [|c rest IH]; cbn [flat_map filter]; [reflexivity|].
  rewrite length_app.
  destruct (preview_of_cases b rt me c) as [[Hf Hp] | (o & u & Hf & _ & _ & _ & Hp)];
    rewrite Hf, Hp; cbn; lia.
Qed.

(** A chat without preview can be struck from the list. *)
Lemma previews_of_without b rt me chat chatIds :
  preview_of b rt me chat = None ->
  previews_of b rt me chatIds =
  previews_of b rt me (filter (fun c => negb (String.eqb c chat)) chatIds).
Proof.
  intros Hnone. unfold previews_of.
  induction chatIds as [|c rest IH]; cbn [flat_map filter]; [reflexivity|].
  destruct (String.eqb c chat) eqn:E; cbn [negb].
  - apply String.eqb_eq in E. subst c. rewrite Hnone. exact IH.
  - cbn [flat_map]. rewrite IH. reflexivity.
Qed.

(** Two different rows defeat [.single()]. *)
Lemma single_two {A} (rows : list A) x y :
  In x rows -> In y rows -> x <> y -> single rows = failed PGRST116.
Proof.
  intros Hx Hy Hxy.
  destruct rows as [|a [|b rest]]; try reflexivity.
  cbn in Hx, Hy. destruct Hx as [Hx|[]], Hy as [Hy|[]]. congruence.
Qed.

Lemma In_other_participant_rows t chat me u :
  In (mkParticipant chat u) (chat_participants t) -> u <> me ->
  In u (other_participant_rows t chat me).
Proof.
  intros Hin Hne. unfold other_participant_rows.
  apply in_map_iff. exists (mkParticipant chat u). split; [reflexivity|].
  apply filter_In. split; [exact Hin|]. cbn.
  rewrite String.eqb_refl.
  apply String.eqb_neq in Hne. rewrite Hne. reflexivity.
Qed.

(** The rows the count request counts are the messages that count as unread. *)
Lemma unread_rows_counts t chat me :
  unread_rows t chat me = filter (counts_as_unread me chat) (messages t).
Proof.
  unfold unread_rows. apply filter_ext. intros m. unfold counts_as_unread.
  destruct (msg_read m); reflexivity.
Qed.

Lemma or_number_of_nat n : or_number (Some (Z.of_nat n)) 0 = Z.of_nat n.
Proof.
  unfold or_number. destruct (Z.of_nat n =? 0) eqn:E; [|reflexivity].
  apply Z.eqb_eq in E. symmetry. exact E.
Qed.

Lemma unread_of_count b chat me :
  or_number (count (select_unread_count b chat me)) 0 = expected_unread b me chat.
Proof.
  unfold select_unread_count, answer, expected_unread.
  destruct (refuses b (QUnreadCount chat me)); cbn [count failed]; [reflexivity|].
  rewrite or_number_of_nat, unread_rows_counts. reflexivity.
Qed.

Lemma expected_unread_nonneg b me chat : 0 <= expected_unread b me chat.
Proof.
  unfold expected_unread.
  destruct (refuses b (QUnreadCount chat me)); [reflexivity | apply Nat2Z.is_nonneg].
Qed.

(** A chat without messages has no last message to show. *)
Lemma no_message_no_data b chat :
  chat_messages (tables b) chat = [] -> data (select_last_message b chat) = None.
Proof.
  intros H. unfold select_last_message, answer. rewrite H.
  destruct (refuses b (QLastMessage chat)); reflexivity.
Qed.

(** ** The finally block *)

Lemma call_after body w : after (call body) w = after body w.
Proof. unfold after, call. destruct (body w) as [[a| |e] w']; reflexivity. Qed.

Lemma try_finally_setLoading {A} (body : M A) w :
  loading (after (try_finally body (setLoading false)) w) = false.
Proof. unfold after, try_finally. destruct (body w) as [c w']. reflexivity. Qed.

(** ** The mounted component, path by path *)

Lemma mounted_chats b s rt :
  refuses b (QParticipations (user_id (user s))) = None ->
  chats (ChatList_mounted b (Some s) rt) =
  sort (compare_previews rt)
       (previews_of b rt (user_id (user s)) (memberships b s)).
Proof.
  intros Hr. unfold ChatList_mounted. rewrite fetchChats_chats. cbn.
  rewrite Hr. reflexivity.
Qed.

Lemma membership_failure_shape b s rt e :
  refuses b (QParticipations (user_id (user s))) = Some e ->
  chats (ChatList_mounted b (Some s) rt) = []
  /\ toasts (ChatList_mounted b (Some s) rt) = [toast_text].
Proof.
  intros Hr. unfold ChatList_mounted, after.
  rewrite (@fetchChats_refused (mount b (Some s) rt) s e eq_refl Hr).
  split; reflexivity.
Qed.

(** ** The sample service, evaluated *)

(** [B] with "hi" and two unread messages, [G] under the placeholder name,
    then [C], who has no message; the chats [c3], [c4] and [c5] are skipped. *)
Example sample_mounted :
  map (fun p => (id p, username p, last_message p, last_time p, unread p))
      (chats (ChatList_mounted Sample.sample_backend (Some Sample.session_A)
                               Sample.utc24))
  = [ ("B", "bia", Some "hi", Some "10:00", Some 2);
      ("G", "Usuário", Some "ate logo", Some "11:00", Some 0);
      ("C", "caio", Some "", Some "", Some 0) ].
Proof. reflexivity. Qed.

(** One request for a chat without a single counterpart, two when the
    profile is missing, four otherwise. *)
Example sample_requests :
  requests (ChatList_mounted Sample.sample_backend (Some Sample.session_A)
                             Sample.utc24)
  = [ QParticipations "A";
      QOtherParticipant "c1" "A"; QProfile "B"; QLastMessage "c1";
      QUnreadCount "c1" "A";
      QOtherParticipant "c2" "A"; QProfile "C"; QLastMessage "c2";
      QUnreadCount "c2" "A";
      QOtherParticipant "c3" "A";
      QOtherParticipant "c4" "A"; QProfile "F";
      QOtherParticipant "c5" "A";
      QOtherParticipant "c6" "A"; QProfile "G"; QLastMessage "c6";
      QUnreadCount "c6" "A" ].
Proof. reflexivity. Qed.

(** With the count requests refused every unread count is zero. *)
Example sample_counts_down :
  map unread (chats (ChatList_mounted Sample.counts_down
                       (Some Sample.session_A) Sample.utc24))
  = [Some 0; Some 0; Some 0].
Proof. reflexivity. Qed.

(** A host three hours behind UTC on a 12-hour clock. *)
Example sample_time_of_day :
  toLocaleTimeString (mkRuntime (-180) true (fun _ => NaN)) Sample.T1
  = "07:00 AM".
Proof. reflexivity. Qed.

(** ** Properties of the loader *)

(** C2.  With no session, [fetchChats] ends normally at once: the list is
    set to the empty list, the loading flag is cleared, no request is sent to
    the service and nothing is reported, neither a toast nor a console error. *)
Theorem no_session_empty_without_queries w :
  auth_session w = None ->
  fst (fetchChats w) = Normal tt
  /\ chats (after fetchChats w) = []
  /\ loading (after fetchChats w) = false
  /\ requests (after fetchChats w) = requests w
  /\ toasts (after fetchChats w) = toasts w
  /\ console (after fetchChats w) = console w.
Proof.
  intros H. unfold after. rewrite (fetchChats_no_session w H).
  repeat split.
Qed.

Lemma no_session_empty_without_queries_witness :
  auth_session (mount Sample.sample_backend None Sample.utc24) = None
  /\ chats (ChatList_mounted Sample.sample_backend None Sample.utc24) = []
  /\ requests (ChatList_mounted Sample.sample_backend None Sample.utc24) = [].
Proof.
  split; [reflexivity|].
  destruct (@no_session_empty_without_queries
              (mount Sample.sample_backend None Sample.utc24) eq_refl)
    as (_ & Hc & _ & Hq & _).
  split; [exact Hc | exact Hq].
Defined.

(** C4.  When the membership request fails, the mounted component does not
    crash and shows no partial result: [fetchChats] ends normally, exactly
    one toast with the failure text is shown, the error is written to the
    console, the list is still the empty list it was created with, and the
    membership request is the only request that was sent. *)
Theorem membership_failure_is_notified b s rt e :
  refuses b (QParticipations (user_id (user s))) = Some e ->
  fst (fetchChats (mount b (Some s) rt)) = Normal tt
  /\ toasts (ChatList_mounted b (Some s) rt) = [toast_text]
  /\ chats (ChatList_mounted b (Some s) rt) = []
  /\ loading (ChatList_mounted b (Some s) rt) = false
  /\ console (ChatList_mounted b (Some s) rt)
     = [(console_text, PostgrestThrown e)]
  /\ requests (ChatList_mounted b (Some s) rt)
     = [QParticipations (user_id (user s))].
Proof.
  intros Hr. unfold ChatList_mounted, after.
  rewrite (@fetchChats_refused (mount b (Some s) rt) s e eq_refl Hr).
  repeat split.
Qed.

Lemma membership_failure_is_notified_witness :
  refuses Sample.memberships_down
          (QParticipations (user_id (user Sample.session_A)))
  = Some Sample.network_error
  /\ toasts (ChatList_mounted Sample.memberships_down (Some Sample.session_A)
                              Sample.utc24) = [toast_text]
  /\ chats (ChatList_mounted Sample.memberships_down (Some Sample.session_A)
                             Sample.utc24) = [].
Proof.
  split; [reflexivity|].
  destruct (@membership_failure_is_notified Sample.memberships_down
              Sample.session_A Sample.utc24 Sample.network_error eq_refl)
    as (_ & Ht & Hc & _).
  split; [exact Ht | exact Hc].
Defined.

(** C10.  Whatever the path -- no session, no membership, previews
    assembled, or an error thrown and caught -- [fetchChats] completes, and
    when it has completed the loading flag is false. *)
Theorem loading_ends_false w :
  fst (fetchChats w) = Normal tt /\ loading (after fetchChats w) = false.
Proof.
  split; [apply fetchChats_completes|].
  unfold fetchChats. rewrite call_after. apply try_finally_setLoading.
Qed.

(** C7.  [fetchChats] only reads: the service it leaves is the one it found
    (tables and so every message with its read flag), and every request it
    sent is a GET or a HEAD. *)
Theorem load_only_reads w :
  backend (after fetchChats w) = backend w
  /\ messages (tables (backend (after fetchChats w)))
     = messages (tables (backend w))
  /\ map msg_read (messages (tables (backend (after fetchChats w))))
     = map msg_read (messages (tables (backend w)))
  /\ exists sent,
      requests (after fetchChats w) = requests w ++ sent
      /\ Forall read_request sent.
Proof.
  destruct (reads_only_fetchChats w) as [Hb Hsent].
  rewrite Hb. repeat split. exact Hsent.
Qed.

(** C8.  A second load over the same service and session, started from the
    state the first load left, ends with the same list in the same order. *)
Theorem load_twice_same_list w :
  chats (after fetchChats (after fetchChats w)) = chats (after fetchChats w).
Proof.
  rewrite (fetchChats_chats (after fetchChats w)).
  rewrite fetchChats_auth_session, fetchChats_runtime.
  destruct (reads_only_fetchChats w) as [-> _].
  rewrite (fetchChats_chats w).
  destruct (auth_session w) as [s|]; [|reflexivity].
  destruct (refuses (backend w) (QParticipations (user_id (user s))));
    reflexivity.
Qed.

(** C3.  With [N] memberships of which [M] have a failing counterpart or
    profile lookup, the mounted component ends with exactly [N - M] previews
    and no toast: a failing chat is skipped and the others are still
    processed.  Whether or not the membership request is answered, the list
    is never longer than the membership list. *)
Theorem previews_count b s rt :
  (refuses b (QParticipations (user_id (user s))) = None ->
   (List.length (chats (ChatList_mounted b (Some s) rt))
    = List.length (memberships b s)
      - List.length (filter (lookup_fails b (user_id (user s)))
                            (memberships b s)))%nat
   /\ toasts (ChatList_mounted b (Some s) rt) = [])
  /\ (List.length (chats (ChatList_mounted b (Some s) rt))
      <= List.length (memberships b s))%nat.
Proof.
  pose proof (previews_of_length b rt (user_id (user s)) (memberships b s))
    as Hlen.
  split.
  - intros Hr. split.
    + rewrite (mounted_chats b s rt Hr), sort_length. lia.
    + unfold ChatList_mounted, after.
      rewrite (@fetchChats_answered (mount b (Some s) rt) s eq_refl Hr).
      reflexivity.
  - destruct (refuses b (QParticipations (user_id (user s)))) as [e|] eqn:Hr.
    + destruct (membership_failure_shape b s rt Hr) as [-> _]. cbn. lia.
    + rewrite (mounted_chats b s rt Hr), sort_length. lia.
Qed.

Lemma previews_count_witness :
  refuses Sample.sample_backend
          (QParticipations (user_id (user Sample.session_A))) = None
  /\ List.length (memberships Sample.sample_backend Sample.session_A) = 6%nat
  /\ List.length (filter (lookup_fails Sample.sample_backend "A")
                         (memberships Sample.sample_backend Sample.session_A))
     = 3%nat
  /\ List.length (chats (ChatList_mounted Sample.sample_backend
                           (Some Sample.session_A) Sample.utc24)) = 3%nat.
Proof.
  split; [reflexivity|]. split; [reflexivity|]. split; [reflexivity|].
  destruct (previews_count Sample.sample_backend Sample.session_A Sample.utc24)
    as [H _].
  destruct (H eq_refl) as [Hlen _].
  rewrite Hlen. reflexivity.
Defined.

(** C5.  Every preview of the mounted component comes from a chat of the
    membership list and shows as unread count the number of messages of that
    chat that are marked unread and were not sent by the user, or zero when
    the count request fails; the count is a non-negative integer (and zero
    when no message counts). *)
Theorem unread_counts_unread_messages_of_others b s rt :
  Forall
    (fun p =>
       exists chat,
         In chat (memberships b s)
         /\ preview_of b rt (user_id (user s)) chat = Some p
         /\ unread p = Some (expected_unread b (user_id (user s)) chat)
         /\ 0 <= expected_unread b (user_id (user s)) chat
         /\ (filter (counts_as_unread (user_id (user s)) chat)
                    (messages (tables b)) = [] ->
             unread p = Some 0))
    (chats (ChatList_mounted b (Some s) rt)).
Proof.
  apply Forall_forall. intros p Hp.
  destruct (refuses b (QParticipations (user_id (user s)))) as [e|] eqn:Hr.
  - destruct (membership_failure_shape b s rt Hr) as [Hc _].
    rewrite Hc in Hp. destruct Hp.
  - rewrite (mounted_chats b s rt Hr), sort_In, In_previews_of in Hp.
    destruct Hp as (chat & Hin & Hprev).
    exists chat. split; [exact Hin|]. split; [exact Hprev|].
    assert (unread p = Some (expected_unread b (user_id (user s)) chat)) as Hu.
    { destruct (preview_of_cases b rt (user_id (user s)) chat)
        as [[_ Hnone] | (o & u & _ & _ & _ & _ & Hsome)].
      - congruence.
      - rewrite Hsome in Hprev. injection Hprev as <-. cbn [unread].
        rewrite unread_of_count. reflexivity. }
    split; [exact Hu|]. split; [apply expected_unread_nonneg|].
    intros Hnone. rewrite Hu. unfold expected_unread. rewrite Hnone.
    destruct (refuses b (QUnreadCount chat (user_id (user s)))); reflexivity.
Qed.

(** C6.  A chat whose two lookups succeed always gives a preview of the
    counterpart.  When the chat has no message at all, the preview's last
    message and time are the empty string, which the component treats as
    absent; when the counterpart's profile has no username, the preview is
    named by the placeholder "Usuário". *)
Theorem defaults_for_missing_message_and_name b s rt chat :
  refuses b (QParticipations (user_id (user s))) = None ->
  In chat (memberships b s) ->
  lookup_fails b (user_id (user s)) chat = false ->
  exists p o userData,
    In p (chats (ChatList_mounted b (Some s) rt))
    /\ data (select_other_participant b chat (user_id (user s))) = Some o
    /\ data (select_profile b o) = Some userData
    /\ id p = o
    /\ (chat_messages (tables b) chat = [] ->
        last_message p = Some "" /\ last_time p = Some ""
        /\ has_time p = false)
    /\ (pr_username userData = None -> username p = "Usuário").
Proof.
  intros Hr Hin Hok.
  destruct (preview_of_cases b rt (user_id (user s)) chat)
    as [[Hf _] | (o & u & _ & _ & Ho & Hu & Hsome)]; [congruence|].
  eexists. exists o, u. split.
  - rewrite (mounted_chats b s rt Hr), sort_In, In_previews_of.
    exists chat. split; [exact Hin | exact Hsome].
  - split; [exact Ho|]. split; [exact Hu|]. split; [reflexivity|]. split.
    + intros Hnone. unfold has_time. cbn [last_message last_time].
      rewrite (no_message_no_data b chat Hnone). repeat split.
    + intros Hname. cbn [username]. rewrite Hname. reflexivity.
Qed.

Lemma defaults_for_missing_message_and_name_witness :
  (exists p, In p (chats (ChatList_mounted Sample.sample_backend
                            (Some Sample.session_A) Sample.utc24))
             /\ id p = "C" /\ last_message p = Some "" /\ last_time p = Some "")
  /\ (exists p, In p (chats (ChatList_mounted Sample.sample_backend
                               (Some Sample.session_A) Sample.utc24))
                /\ id p = "G" /\ username p = "Usuário").
Proof.
  split.
  - destruct (@defaults_for_missing_message_and_name Sample.sample_backend
                Sample.session_A Sample.utc24 "c2" eq_refl
                (or_intror (or_introl eq_refl)) eq_refl)
      as (p & o & u & Hin & Ho & Hu & Hid & Hmsg & _).
    exists p. split; [exact Hin|].
    vm_compute in Ho. injection Ho as Ho. rewrite <- Ho in Hid.
    destruct (Hmsg eq_refl) as (Hm & Ht & _).
    split; [exact Hid|]. split; [exact Hm | exact Ht].
  - destruct (@defaults_for_missing_message_and_name Sample.sample_backend
                Sample.session_A Sample.utc24 "c6" eq_refl
                (or_intror (or_intror (or_intror (or_intror (or_intror
                   (or_introl eq_refl)))))) eq_refl)
      as (p & o & u & Hin & Ho & Hu & Hid & _ & Hname).
    exists p. split; [exact Hin|].
    vm_compute in Ho. injection Ho as Ho. rewrite <- Ho in Hid.
    rewrite <- Ho in Hu. vm_compute in Hu. injection Hu as Hu.
    rewrite <- Hu in Hname.
    split; [exact Hid | exact (Hname eq_refl)].
Defined.

(** C9.  A chat with two further participants besides the user (three or
    more in all) gives no preview: the counterpart lookup asks for a single
    row and finds several.  The list of the mounted component is the one the
    other chats give, and nothing is reported: no toast, no console error,
    normal completion. *)
Theorem group_chat_is_skipped b s rt chat u1 u2 :
  refuses b (QParticipations (user_id (user s))) = None ->
  In (mkParticipant chat u1) (chat_participants (tables b)) ->
  In (mkParticipant chat u2) (chat_participants (tables b)) ->
  u1 <> u2 -> u1 <> user_id (user s) -> u2 <> user_id (user s) ->
  lookup_fails b (user_id (user s)) chat = true
  /\ preview_of b rt (user_id (user s)) chat = None
  /\ chats (ChatList_mounted b (Some s) rt)
     = sort (compare_previews rt)
            (previews_of b rt (user_id (user s))
               (filter (fun c => negb (String.eqb c chat)) (memberships b s)))
  /\ toasts (ChatList_mounted b (Some s) rt) = []
  /\ console (ChatList_mounted b (Some s) rt) = []
  /\ fst (fetchChats (mount b (Some s) rt)) = Normal tt.
Proof.
  intros Hr H1 H2 H12 H1me H2me.
  assert (lookup_fails b (user_id (user s)) chat = true) as Hfails.
  { unfold lookup_fails, select_other_participant, answer.
    destruct (refuses b (QOtherParticipant chat (user_id (user s))));
      [reflexivity|].
    rewrite (@single_two _ _ u1 u2); [reflexivity | | | exact H12];
      apply In_other_participant_rows; assumption. }
  pose proof (lookup_fails_no_preview b rt _ _ Hfails) as Hnone.
  split; [exact Hfails|]. split; [exact Hnone|]. split.
  - rewrite (mounted_chats b s rt Hr).
    rewrite <- (previews_of_without b rt _ chat (memberships b s) Hnone).
    reflexivity.
  - unfold ChatList_mounted, after.
    rewrite (@fetchChats_answered (mount b (Some s) rt) s eq_refl Hr).
    repeat split.
Qed.

Lemma group_chat_is_skipped_witness :
  In (mkParticipant "c3" "D") (chat_participants Sample.sample_tables)
  /\ In (mkParticipant "c3" "E") (chat_participants Sample.sample_tables)
  /\ preview_of Sample.sample_backend Sample.utc24 "A" "c3" = None
  /\ toasts (ChatList_mounted Sample.sample_backend (Some Sample.session_A)
                              Sample.utc24) = [].
Proof.
  assert (In (mkParticipant "c3" "D") (chat_participants Sample.sample_tables))
    as HD by (cbn; tauto).
  assert (In (mkParticipant "c3" "E") (chat_participants Sample.sample_tables))
    as HE by (cbn; tauto).
  split; [exact HD|]. split; [exact HE|].
  destruct (@group_chat_is_skipped Sample.sample_backend Sample.session_A
              Sample.utc24 "c3" "D" "E" eq_refl HD HE
              ltac:(discriminate) ltac:(discriminate) ltac:(discriminate))
    as (_ & Hnone & _ & Htoasts & _).
  split; [exact Hnone | exact Htoasts].
Defined.

(** C1.  The sort does not order the previews by the instant of their last
    message.  With two chats whose last messages are from 09:00 and from
    10:00 of the same day, listed in that order by the store, the component
    ends with the 09:00 preview first: both times of day are invalid dates
    to the comparator, which answers [NaN].  And on every host, when the
    second message is from the day after at the same time of day, both
    previews show the same time and the older one stays first. *)
Theorem recency_order_is_lost :
  (chats (ChatList_mounted Recency.same_day (Some Recency.session_A)
                           Sample.utc24)
   = [Recency.preview_B "09:00"; Recency.preview_C "10:00"]
   /\ last_instant (tables Recency.same_day) "c1" = Some Recency.nine
   /\ last_instant (tables Recency.same_day) "c2" = Some Recency.ten
   /\ Recency.nine < Recency.ten)
  /\ (forall rt,
         chats (ChatList_mounted Recency.next_day (Some Recency.session_A) rt)
         = [Recency.preview_B (toLocaleTimeString rt Recency.nine);
            Recency.preview_C (toLocaleTimeString rt Recency.nine)]
         /\ last_instant (tables Recency.next_day) "c1" = Some Recency.nine
         /\ last_instant (tables Recency.next_day) "c2"
            = Some (Recency.nine + Recency.day)
         /\ Recency.nine < Recency.nine + Recency.day).
Proof.
  split.
  - repeat split.
  - intros rt. repeat split.
    rewrite (@mounted_chats Recency.next_day Recency.session_A rt eq_refl).
    assert (previews_of Recency.next_day rt (user_id (user Recency.session_A))
              (memberships Recency.next_day Recency.session_A)
            = [Recency.preview_B (toLocaleTimeString rt Recency.nine);
               Recency.preview_C
                 (toLocaleTimeString rt (Recency.nine + 86400000))]) as ->
        by reflexivity.
    rewrite toLocaleTimeString_next_day.
    apply sort_pair.
    unfold below, compare_previews, Recency.preview_B, Recency.preview_C.
    cbn [last_time].
    destruct (not_string (Some (toLocaleTimeString rt Recency.nine)));
      [reflexivity|].
    cbn [getTime].
    destruct (Date_parse rt (toLocaleTimeString rt Recency.nine))
      as [v|]; cbn; [|reflexivity].
    rewrite Z.sub_diag. reflexivity.
Qed.

(** * Further properties of [ChatList] *)

(** ** The mounted component when the membership request is answered *)

Lemma mounted_answered b s rt :
  refuses b (QParticipations (user_id (user s))) = None ->
  ChatList_mounted b (Some s) rt =
  mkWorld b (Some s) rt
          (sort (compare_previews rt)
                (previews_of b rt (user_id (user s)) (memberships b s)))
          false (Some (user s))
          (QParticipations (user_id (user s))
             :: flat_map (queries_of b (user_id (user s))) (memberships b s))
          [] [].
Proof.
  intros Hr. unfold ChatList_mounted, after.
  rewrite (@fetchChats_answered (mount b (Some s) rt) s eq_refl Hr).
  reflexivity.
Qed.

(** The previews on screen are those of the user's chats, whatever happened
    to the membership request. *)
Lemma In_mounted_chats b s rt p :
  In p (chats (ChatList_mounted b (Some s) rt)) ->
  exists chat, In chat (memberships b s)
               /\ preview_of b rt (user_id (user s)) chat = Some p.
Proof.
  intros Hp.
  destruct (refuses b (QParticipations (user_id (user s)))) as [e|] eqn:Hr.
  - destruct (membership_failure_shape b s rt Hr) as [Hc _].
    rewrite Hc in Hp. destruct Hp.
  - rewrite (mounted_chats b s rt Hr), sort_In, In_previews_of in Hp.
    exact Hp.
Qed.

Lemma mounted_chats_In b s rt chat p :
  refuses b (QParticipations (user_id (user s))) = None ->
  In chat (memberships b s) ->
  preview_of b rt (user_id (user s)) chat = Some p ->
  In p (chats (ChatList_mounted b (Some s) rt)).
Proof.
  intros Hr Hin Hp.
  rewrite (mounted_chats b s rt Hr), sort_In, In_previews_of.
  exists chat. split; assumption.
Qed.

Lemma or_string_nonempty x d : d <> "" -> or_string x d <> "".
Proof.
  intros Hd. unfold or_string. destruct x as [s|]; [|exact Hd].
  destruct (String.eqb s "") eqn:E; [exact Hd|].
  apply String.eqb_neq. exact E.
Qed.

Lemma or_string_content s : or_string (Some s) "" = s.
Proof.
  unfold or_string. destruct (String.eqb s "") eqn:E; [|reflexivity].
  apply String.eqb_eq in E. symmetry. exact E.
Qed.

Lemma not_string_false x : not_string x = false -> exists s, x = Some s /\ s <> "".
Proof.
  destruct x as [s|]; cbn; [|discriminate].
  intros E. exists s. split; [reflexivity | apply String.eqb_neq; exact E].
Qed.

(** The row of [other_participant_rows] behind a counterpart. *)
Lemma other_participant_rows_In t chat me o :
  In o (other_participant_rows t chat me) ->
  In (mkParticipant chat o) (chat_participants t) /\ o <> me.
Proof.
  unfold other_participant_rows. rewrite in_map_iff.
  intros ([c u] & Hu & Hin). cbn in Hu. subst u.
  apply filter_In in Hin. destruct Hin as [Hin Hf]. cbn in Hf.
  apply andb_true_iff in Hf. destruct Hf as [Hc Hne].
  apply String.eqb_eq in Hc. subst c.
  split; [exact Hin|].
  apply negb_true_iff, String.eqb_neq in Hne. exact Hne.
Qed.

Lemma participations_rows_In t me chat :
  In chat (participations_rows t me) ->
  In (mkParticipant chat me) (chat_participants t).
Proof.
  unfold participations_rows. rewrite in_map_iff.
  intros ([c u] & Hc & Hin). cbn in Hc. subst c.
  apply filter_In in Hin. destruct Hin as [Hin Hf]. cbn in Hf.
  apply String.eqb_eq in Hf. subst u. exact Hin.
Qed.

(** [newest] picks a row of the list that no row of the list is newer than. *)
Lemma newest_cases ms :
  (ms = [] /\ newest ms = []) \/
  (exists m, newest ms = [m] /\ In m ms
             /\ forall m', In m' ms -> msg_created_at m' <= msg_created_at m).
Proof.
  induction ms as [|m rest IH].
  - left. split; reflexivity.
  - right. cbn [newest].
    destruct IH as [[-> ->] | (n & -> & Hn & Hmax)].
    + exists m. split; [reflexivity|]. split; [left; reflexivity|].
      intros m' [<- | []]. lia.
    + destruct (msg_created_at n >? msg_created_at m) eqn:E.
      * exists n. split; [reflexivity|]. split; [right; exact Hn|].
        intros m' [<- | Hm']; [|apply Hmax; exact Hm'].
        apply Z.gtb_lt in E. lia.
      * exists m. split; [reflexivity|]. split; [left; reflexivity|].
        assert (msg_created_at n <= msg_created_at m) as Hle.
        { destruct (Z.gtb_spec (msg_created_at n) (msg_created_at m));
            [discriminate | assumption]. }
        intros m' [<- | Hm']; [lia|].
        specialize (Hmax m' Hm'). lia.
Qed.

Lemma queries_of_length b me chat :
  (if lookup_fails b me chat
   then (1 <= List.length (queries_of b me chat) <= 2)%nat
   else List.length (queries_of b me chat) = 4%nat).
Proof.
  unfold lookup_fails, queries_of, select_other_participant.
  destruct (answer_single_cases b (QOtherParticipant chat me)
              (other_participant_rows (tables b) chat me))
    as [(o & He & Hd & _) | (e & He & Hd)]; cbv zeta;
    rewrite He, ?Hd; cbv beta iota.
  - destruct (is_some (error (select_profile b o))); cbn; lia.
  - cbn. lia.
Qed.

Lemma requests_of_length b rt me chatIds :
  (List.length chatIds + 3 * List.length (previews_of b rt me chatIds)
   <= List.length (flat_map (queries_of b me) chatIds)
   <= 2 * List.length chatIds + 2 * List.length (previews_of b rt me chatIds))%nat.
Proof.
  unfold previews_of.
  induction chatIds as [|c rest IH]; cbn [flat_map]; [cbn; lia|].
  rewrite !length_app. cbn [List.length].
  pose proof (queries_of_length b me c) as Hq.
  destruct (preview_of_cases b rt me c)
    as [[Hf Hp] | (o & u & Hf & _ & _ & _ & Hp)];
    rewrite Hf in Hq; rewrite Hp; cbn [option_list List.length]; lia.
Qed.

(** The counterparts, chat by chat, are the ids of the previews. *)
Lemma previews_of_ids b rt me chatIds :
  map id (previews_of b rt me chatIds)
  = flat_map (fun c => option_list (counterpart_of b me c)) chatIds.
Proof.
  unfold previews_of.
  induction chatIds as [|c rest IH]; cbn [flat_map]; [reflexivity|].
  rewrite map_app, IH. f_equal.
  unfold counterpart_of.
  destruct (preview_of_cases b rt me c)
    as [[Hf Hp] | (o & u & Hf & _ & Ho & _ & Hp)]; rewrite Hf, Hp.
  - reflexivity.
  - rewrite Ho. reflexivity.
Qed.

(** ** Who is listed *)

(** X1.  Every preview of the mounted component is of somebody else: its
    [id] differs from the user's, and that person sits with the user in one
    of the chats of [chat_participants]. *)
Theorem previews_show_other_participants b s rt :
  Forall
    (fun p =>
       id p <> user_id (user s)
       /\ exists chat,
           In (mkParticipant chat (user_id (user s)))
              (chat_participants (tables b))
           /\ In (mkParticipant chat (id p)) (chat_participants (tables b)))
    (chats (ChatList_mounted b (Some s) rt)).
Proof.
  apply Forall_forall. intros p Hp.
  destruct (In_mounted_chats b s rt p Hp) as (chat & Hin & Hprev).
  destruct (preview_of_cases b rt (user_id (user s)) chat)
    as [[_ Hnone] | (o & u & _ & Hrows & _ & _ & Hsome)]; [congruence|].
  rewrite Hsome in Hprev. injection Hprev as <-. cbn [id].
  assert (In o (other_participant_rows (tables b) chat (user_id (user s))))
    as Ho by (rewrite Hrows; left; reflexivity).
  destruct (other_participant_rows_In _ _ _ _ Ho) as [Hrow Hne].
  split; [exact Hne|].
  exists chat. split; [|exact Hrow].
  apply participations_rows_In. exact Hin.
Qed.

(** X2.  Every row has a name to show: the title is never empty, and the
    avatar is either an image with a non-empty source taken from the profile
    or the initial of that non-empty name. *)
Theorem rows_have_a_name b s rt :
  Forall
    (fun p =>
       row_title (render_row p) <> ""
       /\ match row_avatar (render_row p) with
          | AvatarImage src alt =>
              src <> "" /\ avatar_url p = Some src /\ alt = username p
          | AvatarInitial name => name <> "" /\ name = username p
          end)
    (chats (ChatList_mounted b (Some s) rt)).
Proof.
  apply Forall_forall. intros p Hp.
  destruct (In_mounted_chats b s rt p Hp) as (chat & _ & Hprev).
  assert (username p <> "") as Hname.
  { destruct (preview_of_cases b rt (user_id (user s)) chat)
      as [[_ Hnone] | (o & u & _ & _ & _ & _ & Hsome)]; [congruence|].
    rewrite Hsome in Hprev. injection Hprev as <-. cbn [username].
    apply or_string_nonempty. discriminate. }
  split; [exact Hname|].
  unfold render_row; cbn [row_avatar]. unfold truthy.
  destruct (not_string (avatar_url p)) eqn:E; cbn [negb].
  - split; [exact Hname | reflexivity].
  - destruct (not_string_false _ E) as (src & Hsrc & Hne).
    rewrite Hsrc, or_string_content.
    split; [exact Hne|]. split; reflexivity.
Qed.

(** X7.  Nothing is merged: the keys of the rows are, up to the order the
    sort gives, the counterparts of the chats whose lookups succeed, one per
    chat; two chats with the same person give two rows with the same key. *)
Theorem no_deduplication b s rt :
  refuses b (QParticipations (user_id (user s))) = None ->
  Permutation
    (map row_key (map render_row (chats (ChatList_mounted b (Some s) rt))))
    (flat_map (fun c => option_list (counterpart_of b (user_id (user s)) c))
              (memberships b s)).
Proof.
  intros Hr. rewrite (mounted_chats b s rt Hr), map_map.
  change (fun x => row_key (render_row x)) with id.
  rewrite <- (previews_of_ids b rt).
  apply Permutation_map, sort_perm.
Qed.

Lemma no_deduplication_witness :
  refuses shared_twice (QParticipations (user_id (user Sample.session_A)))
  = None
  /\ Permutation
       (map row_key
            (map render_row
                 (chats (ChatList_mounted shared_twice (Some Sample.session_A)
                                          Sample.utc24))))
       ["B"; "B"].
Proof.
  split; [reflexivity|].
  exact (@no_deduplication shared_twice Sample.session_A Sample.utc24 eq_refl).
Defined.

(** ** What a preview says *)

(** X3.  When the chat has messages and the last-message request is
    answered, the preview shows the content and the time of day of a message
    of that chat that no message of the chat is newer than. *)
Theorem last_message_is_the_newest b s rt chat :
  refuses b (QParticipations (user_id (user s))) = None ->
  In chat (memberships b s) ->
  lookup_fails b (user_id (user s)) chat = false ->
  refuses b (QLastMessage chat) = None ->
  chat_messages (tables b) chat <> [] ->
  exists p m,
    In p (chats (ChatList_mounted b (Some s) rt))
    /\ counterpart_of b (user_id (user s)) chat = Some (id p)
    /\ In m (messages (tables b))
    /\ msg_chat_id m = chat
    /\ (forall m', In m' (messages (tables b)) -> msg_chat_id m' = chat ->
                   msg_created_at m' <= msg_created_at m)
    /\ last_message p = Some (msg_content m)
    /\ last_time p = Some (toLocaleTimeString rt (msg_created_at m)).
Proof.
  intros Hr Hin Hok Hlast Hmsgs.
  destruct (preview_of_cases b rt (user_id (user s)) chat)
    as [[Hf _] | (o & u & _ & _ & Ho & _ & Hsome)]; [congruence|].
  destruct (newest_cases (chat_messages (tables b) chat))
    as [[Hnil _] | (m & Hnew & Hm & Hmax)]; [contradiction|].
  assert (data (select_last_message b chat) = Some m) as Hdata.
  { unfold select_last_message, answer. rewrite Hlast, Hnew. reflexivity. }
  unfold chat_messages in Hm. apply filter_In in Hm. destruct Hm as [Hm Hc].
  apply String.eqb_eq in Hc.
  eexists. exists m. split; [exact (mounted_chats_In b s rt chat Hr Hin Hsome)|].
  cbn [id last_message last_time]. rewrite Hdata. cbn [option_map].
  split; [unfold counterpart_of; rewrite Hok; exact Ho|].
  split; [exact Hm|]. split; [exact Hc|]. split.
  - intros m' Hm' Hc'. apply Hmax. unfold chat_messages.
    apply filter_In. split; [exact Hm'|]. apply String.eqb_eq. exact Hc'.
  - rewrite or_string_content. split; reflexivity.
Qed.

Lemma last_message_is_the_newest_witness :
  exists p,
    In p (chats (ChatList_mounted Sample.sample_backend (Some Sample.session_A)
                                  Sample.utc24))
    /\ id p = "B" /\ last_message p = Some "hi" /\ last_time p = Some "10:00".
Proof.
  destruct (@last_message_is_the_newest Sample.sample_backend Sample.session_A
              Sample.utc24 "c1" eq_refl (or_introl eq_refl) eq_refl eq_refl
              ltac:(discriminate))
    as (p & m & Hin & Ho & Hm & Hc & Hmax & Hmsg & Htime).
  exists p. split; [exact Hin|].
  vm_compute in Ho. injection Ho as Ho.
  split; [symmetry; exact Ho|].
  assert (msg_created_at m = Sample.T1 /\ msg_content m = "hi") as [Et Ec].
  { pose proof (Hmax (mkMessage "c1" "B" "hi" Sample.T1 false)
                  ltac:(cbn; tauto) eq_refl) as Hle.
    cbn in Hm.
    destruct Hm as [<-|[<-|[<-|[<-|[<-|[]]]]]]; cbn in Hc, Hle;
      try discriminate Hc; try (split; reflexivity);
      exfalso; vm_compute in Hle; apply Hle; reflexivity. }
  rewrite Hmsg, Htime, Et, Ec. split; reflexivity.
Defined.

(** X4.  A refused last-message request costs nothing but the snippet: the
    chat is still listed, with empty message and time, and neither a toast
    nor a console line tells of it, even when the chat has messages. *)
Theorem refused_last_message_is_silent b s rt chat e :
  refuses b (QParticipations (user_id (user s))) = None ->
  In chat (memberships b s) ->
  lookup_fails b (user_id (user s)) chat = false ->
  refuses b (QLastMessage chat) = Some e ->
  (exists p,
      In p (chats (ChatList_mounted b (Some s) rt))
      /\ counterpart_of b (user_id (user s)) chat = Some (id p)
      /\ last_message p = Some "" /\ last_time p = Some ""
      /\ row_message (render_row p) = None /\ row_time (render_row p) = None)
  /\ toasts (ChatList_mounted b (Some s) rt) = []
  /\ console (ChatList_mounted b (Some s) rt) = [].
Proof.
  intros Hr Hin Hok Hlast.
  destruct (preview_of_cases b rt (user_id (user s)) chat)
    as [[Hf _] | (o & u & _ & _ & Ho & _ & Hsome)]; [congruence|].
  assert (data (select_last_message b chat) = None) as Hdata.
  { unfold select_last_message, answer. rewrite Hlast. reflexivity. }
  split.
  - eexists. split; [exact (mounted_chats_In b s rt chat Hr Hin Hsome)|].
    unfold render_row. cbn [id last_message last_time row_message row_time].
    rewrite Hdata. cbn.
    split; [unfold counterpart_of; rewrite Hok; exact Ho|].
    repeat split.
  - rewrite (mounted_answered b s rt Hr). split; reflexivity.
Qed.

Lemma refused_last_message_is_silent_witness :
  chat_messages (tables last_messages_down) "c1" <> []
  /\ exists p,
      In p (chats (ChatList_mounted last_messages_down (Some Sample.session_A)
                                    Sample.utc24))
      /\ id p = "B" /\ last_message p = Some "" /\ last_time p = Some "".
Proof.
  split; [discriminate|].
  destruct (@refused_last_message_is_silent last_messages_down Sample.session_A
              Sample.utc24 "c1" Sample.network_error eq_refl
              (or_introl eq_refl) eq_refl eq_refl)
    as [(p & Hin & Ho & Hm & Ht & _) _].
  exists p. split; [exact Hin|].
  vm_compute in Ho. injection Ho as Ho.
  split; [symmetry; exact Ho|]. split; [exact Hm | exact Ht].
Defined.

(** ** What a load costs and reports *)

(** X5.  Requests go out one after the other, the membership request first.
    With [N] chats and [P] previews in the end, a load sends at least
    [1 + N + 3 P] and at most [1 + 2 N + 2 P] requests: four for every chat
    listed, one or two for every chat skipped. *)
Theorem requests_sent_bounds b s rt :
  refuses b (QParticipations (user_id (user s))) = None ->
  let N := List.length (memberships b s) in
  let P := List.length (chats (ChatList_mounted b (Some s) rt)) in
  let sent := requests (ChatList_mounted b (Some s) rt) in
  hd_error sent = Some (QParticipations (user_id (user s)))
  /\ (1 + N + 3 * P <= List.length sent <= 1 + 2 * N + 2 * P)%nat
  /\ (N + 1 <= List.length sent <= 4 * N + 1)%nat
  /\ (P = N -> List.length sent = 4 * N + 1)%nat.
Proof.
  intros Hr. cbv zeta.
  rewrite (mounted_answered b s rt Hr). cbn [requests chats hd_error].
  rewrite sort_length. cbn [List.length].
  pose proof (requests_of_length b rt (user_id (user s)) (memberships b s)).
  pose proof (previews_of_length b rt (user_id (user s)) (memberships b s)).
  repeat split; lia.
Qed.

Lemma requests_sent_bounds_witness :
  List.length (memberships Sample.sample_backend Sample.session_A) = 6%nat
  /\ List.length (requests (ChatList_mounted Sample.sample_backend
                              (Some Sample.session_A) Sample.utc24)) = 17%nat
  /\ (1 + 6 + 3 * 3 <= 17 <= 1 + 2 * 6 + 2 * 3)%nat.
Proof.
  split; [reflexivity|]. split; [reflexivity|].
  destruct (@requests_sent_bounds Sample.sample_backend Sample.session_A
              Sample.utc24 eq_refl) as (_ & Hb & _).
  exact Hb.
Defined.

(** X8.  The only failure a load ever reports is that of the membership
    request: every console line carries the error the service gave to that
    request, there is one toast per line, at most one in all, and no
    [TypeError] is ever thrown by reading a missing row. *)
Theorem only_membership_errors_are_reported b s rt :
  Forall
    (fun line =>
       exists u e,
         s = Some u
         /\ refuses b (QParticipations (user_id (user u))) = Some e
         /\ line = (console_text, PostgrestThrown e))
    (console (ChatList_mounted b s rt))
  /\ toasts (ChatList_mounted b s rt)
     = map (fun _ => toast_text) (console (ChatList_mounted b s rt))
  /\ (List.length (console (ChatList_mounted b s rt)) <= 1)%nat.
Proof.
  unfold ChatList_mounted.
  destruct s as [s|].
  - destruct (refuses b (QParticipations (user_id (user s)))) as [e|] eqn:Hr.
    + unfold after.
      rewrite (@fetchChats_refused (mount b (Some s) rt) s e eq_refl Hr).
      cbn. split; [|split; [reflexivity | lia]].
      constructor; [|constructor].
      exists s, e. repeat split. exact Hr.
    + unfold after.
      rewrite (@fetchChats_answered (mount b (Some s) rt) s eq_refl Hr).
      cbn. split; [constructor | split; [reflexivity | lia]].
  - unfold after.
    rewrite (@fetchChats_no_session (mount b None rt) eq_refl).
    cbn. split; [constructor | split; [reflexivity | lia]].
Qed.

(** ** The order of the list *)



(** ** What is on screen *)

(** X9.  The spinner is what the component shows before the load and never
    after it: once [fetchChats] has run, the screen is the empty state when
    the list is empty and otherwise one row per preview, in list order. *)
Theorem spinner_only_before_load b s rt :
  render (mount b s rt) = Spinner
  /\ render (ChatList_mounted b s rt) <> Spinner
  /\ (chats (ChatList_mounted b s rt) = [] ->
      render (ChatList_mounted b s rt) = EmptyState)
  /\ (chats (ChatList_mounted b s rt) <> [] ->
      render (ChatList_mounted b s rt)
      = ChatRows (map render_row (chats (ChatList_mounted b s rt)))).
Proof.
  split; [reflexivity|].
  assert (loading (ChatList_mounted b s rt) = false) as Hl.
  { unfold ChatList_mounted, fetchChats. rewrite call_after.
    apply try_finally_setLoading. }
  unfold render. rewrite Hl.
  destruct (chats (ChatList_mounted b s rt)) as [|p rest]; cbn.
  - repeat split; try discriminate. intros H; contradiction.
  - repeat split; discriminate.
Qed.

(** X10.  A load that fails looks like an empty account: without a session,
    with the membership request refused, or with every chat skipped, the
    screen is the empty state. *)
Theorem failed_load_shows_empty_state b s rt :
  match s with
  | None => True
  | Some u =>
      refuses b (QParticipations (user_id (user u))) <> None
      \/ (forall chat, In chat (memberships b u) ->
                       lookup_fails b (user_id (user u)) chat = true)
  end ->
  render (ChatList_mounted b s rt) = EmptyState.
Proof.
  intros H.
  assert (chats (ChatList_mounted b s rt) = []) as Hc.
  { destruct s as [u|].
    - destruct (refuses b (QParticipations (user_id (user u)))) as [e|] eqn:Hr.
      + apply (membership_failure_shape b u rt Hr).
      + destruct H as [H | H]; [contradiction|].
        apply length_zero_iff_nil.
        rewrite (mounted_chats b u rt Hr), sort_length.
        pose proof (previews_of_length b rt (user_id (user u))
                      (memberships b u)) as Hlen.
        assert (filter (lookup_fails b (user_id (user u))) (memberships b u)
                = memberships b u) as Hall.
        { apply forallb_filter_id. apply forallb_forall. exact H. }
        rewrite Hall in Hlen. lia.
    - unfold ChatList_mounted, after.
      rewrite (@fetchChats_no_session (mount b None rt) eq_refl). reflexivity. }
  assert (loading (ChatList_mounted b s rt) = false) as Hl.
  { unfold ChatList_mounted, fetchChats. rewrite call_after.
    apply try_finally_setLoading. }
  unfold render. rewrite Hl, Hc. reflexivity.
Qed.

Lemma failed_load_shows_empty_state_witness :
  render (ChatList_mounted Sample.memberships_down (Some Sample.session_A)
                           Sample.utc24) = EmptyState
  /\ toasts (ChatList_mounted Sample.memberships_down (Some Sample.session_A)
                              Sample.utc24) = [toast_text].
Proof.
  split; [|reflexivity].
  apply (@failed_load_shows_empty_state Sample.memberships_down
           (Some Sample.session_A) Sample.utc24).
  left. discriminate.
Defined.

(** X11.  The green badge of a row appears exactly when the count request
    was answered with at least one message of the chat that is unread and
    not the user's own, and then it shows their number. *)
Theorem badge_shows_unread_from_others b s rt :
  Forall
    (fun p =>
       exists chat,
         In chat (memberships b s)
         /\ preview_of b rt (user_id (user s)) chat = Some p
         /\ row_badge (render_row p)
            = (if 0 <? expected_unread b (user_id (user s)) chat
               then Some (expected_unread b (user_id (user s)) chat)
               else None)
         /\ (row_badge (render_row p) = None <->
             (refuses b (QUnreadCount chat (user_id (user s))) <> None
              \/ filter (counts_as_unread (user_id (user s)) chat)
                        (messages (tables b)) = [])))
    (chats (ChatList_mounted b (Some s) rt)).
Proof.
  apply Forall_forall. intros p Hp.
  destruct (In_mounted_chats b s rt p Hp) as (chat & Hin & Hprev).
  exists chat. split; [exact Hin|]. split; [exact Hprev|].
  assert (unread p = Some (expected_unread b (user_id (user s)) chat)) as Hu.
  { destruct (preview_of_cases b rt (user_id (user s)) chat)
      as [[_ Hnone] | (o & u & _ & _ & _ & _ & Hsome)]; [congruence|].
    rewrite Hsome in Hprev. injection Hprev as <-. cbn [unread].
    rewrite unread_of_count. reflexivity. }
  unfold render_row; cbn [row_badge]. rewrite Hu. cbn [positive].
  split; [reflexivity|].
  unfold expected_unread.
  destruct (refuses b (QUnreadCount chat (user_id (user s)))) as [e|].
  - cbn. split; [intros _; left; discriminate | reflexivity].
  - destruct (filter (counts_as_unread (user_id (user s)) chat)
                     (messages (tables b))) as [|m rest]; cbn [List.length].
    + cbn. split; [intros _; right; reflexivity | reflexivity].
    + rewrite Nat2Z.inj_succ.
      destruct (0 <? Z.succ (Z.of_nat (List.length rest))) eqn:E.
      * split; [discriminate|]. intros [H | H]; [contradiction | discriminate].
      * apply Z.ltb_ge in E. lia.
Qed.

(** X12.  The row of a chat in which nothing was ever written shows the
    counterpart's avatar and name and nothing else: no time, no snippet, no
    badge. *)
Theorem empty_conversation_row b s rt chat :
  refuses b (QParticipations (user_id (user s))) = None ->
  In chat (memberships b s) ->
  lookup_fails b (user_id (user s)) chat = false ->
  chat_messages (tables b) chat = [] ->
  exists p,
    In p (chats (ChatList_mounted b (Some s) rt))
    /\ counterpart_of b (user_id (user s)) chat = Some (id p)
    /\ row_to (render_row p) = String.append "/chat/" (id p)
    /\ row_time (render_row p) = None
    /\ row_message (render_row p) = None
    /\ row_badge (render_row p) = None.
Proof.
  intros Hr Hin Hok Hnone.
  destruct (preview_of_cases b rt (user_id (user s)) chat)
    as [[Hf _] | (o & u & _ & _ & Ho & _ & Hsome)]; [congruence|].
  eexists. split; [exact (mounted_chats_In b s rt chat Hr Hin Hsome)|].
  unfold render_row.
  cbn [id last_message last_time unread row_to row_time row_message row_badge].
  rewrite (no_message_no_data b chat Hnone), unread_of_count.
  split; [unfold counterpart_of; rewrite Hok; exact Ho|].
  split; [reflexivity|]. split; [reflexivity|]. split; [reflexivity|].
  assert (expected_unread b (user_id (user s)) chat = 0) as ->; [|reflexivity].
  unfold expected_unread.
  destruct (refuses b (QUnreadCount chat (user_id (user s)))); [reflexivity|].
  assert (filter (counts_as_unread (user_id (user s)) chat)
                 (messages (tables b)) = []) as ->; [|reflexivity].
  unfold chat_messages in Hnone.
  induction (messages (tables b)) as [|m rest IH]; [reflexivity|].
  cbn [filter] in *. unfold counts_as_unread at 1.
  destruct (String.eqb (msg_chat_id m) chat); [discriminate|].
  cbn. apply IH. exact Hnone.
Qed.

Lemma empty_conversation_row_witness :
  exists p,
    In p (chats (ChatList_mounted Sample.sample_backend (Some Sample.session_A)
                                  Sample.utc24))
    /\ id p = "C"
    /\ row_time (render_row p) = None /\ row_message (render_row p) = None
    /\ row_badge (render_row p) = None.
Proof.
  destruct (@empty_conversation_row Sample.sample_backend Sample.session_A
              Sample.utc24 "c2" eq_refl (or_intror (or_introl eq_refl))
              eq_refl eq_refl)
    as (p & Hin & Ho & _ & Ht & Hm & Hb).
  exists p. split; [exact Hin|].
  vm_compute in Ho. injection Ho as Ho.
  split; [symmetry; exact Ho|]. repeat split; assumption.
Defined.

(** * Properties of [ReactionMenu] *)

Section MenuFacts.

Import ReactionMenu.

Ltac menu_cases m :=
  destruct m as [rl_ op_ cr_ mo il lc ct ft al co];
  unfold timers_agree, step, open_effect, open_cleanup, count_image,
    setMounted, setImagesLoaded, set_close_timer, set_fallback_timer,
    set_isOpen, set_currentReaction, ReactionMenu.console_error in *;
  cbn in *.

(** Every flag of the menu decided, every remaining test split. *)
Ltac menu_flags :=
  repeat match goal with
         | x : bool |- _ => destruct x
         end;
  cbn in *;
  repeat match goal with
         | |- context [if ?x then _ else _] => destruct x; cbn in *
         end.

Lemma run_app es es' m : run (es ++ es') m = run es' (run es m).
Proof. unfold run. apply fold_left_app. Qed.

Lemma run_snoc es e m : run (es ++ [e]) m = step (run es m) e.
Proof. rewrite run_app. reflexivity. Qed.

Lemma mount_timers_agree rl o c : timers_agree (ReactionMenu.mount rl o c).
Proof.
  unfold ReactionMenu.mount, timers_agree, open_effect, setMounted,
    set_close_timer.
  destruct o; cbn; intuition congruence.
Qed.

Lemma step_timers_agree m e : timers_agree m -> timers_agree (step m e).
Proof.
  intros H. destruct e as [b|r| | |src|src|]; menu_cases m.
  - destruct al, op_, b, mo, ct; cbn in *; intuition congruence.
  - destruct al; cbn in *; intuition congruence.
  - destruct al, op_, mo, ct; cbn in *; intuition congruence.
  - destruct al, ft; cbn in *; intuition congruence.
  - destruct (lc + 1 =? Z.of_nat (List.length rl_)), al; cbn in *;
      intuition congruence.
  - destruct (lc + 1 =? Z.of_nat (List.length rl_)), al; cbn in *;
      intuition congruence.
  - destruct al, op_; cbn in *; intuition congruence.
Qed.

Lemma run_timers_agree es : forall m, timers_agree m -> timers_agree (run es m).
Proof.
  induction es as [|e rest IH]; intros m H; [exact H|].
  apply IH, step_timers_agree, H.
Qed.

Lemma step_reactionsList m e : reactionsList (step m e) = reactionsList m.
Proof.
  destruct e as [b|r| | |src|src|]; menu_cases m; menu_flags; reflexivity.
Qed.

Lemma run_reactionsList es : forall m, reactionsList (run es m) = reactionsList m.
Proof.
  induction es as [|e rest IH]; intros m; [reflexivity|].
  cbn. unfold run in IH. rewrite IH. apply step_reactionsList.
Qed.

Lemma step_imagesLoaded_stays m e :
  imagesLoaded m = true -> imagesLoaded (step m e) = true.
Proof.
  intros H. destruct e as [b|r| | |src|src|]; menu_cases m; menu_flags;
    try discriminate; reflexivity.
Qed.

Lemma run_imagesLoaded_stays es : forall m,
  imagesLoaded m = true -> imagesLoaded (run es m) = true.
Proof.
  induction es as [|e rest IH]; intros m H; [exact H|].
  apply IH, step_imagesLoaded_stays, H.
Qed.

Lemma step_loadedCount m e :
  loadedCount (step m e)
  = loadedCount m + (if is_image_event e then 1 else 0).
Proof.
  destruct e as [b|r| | |src|src|]; menu_cases m; menu_flags; lia.
Qed.

Lemma step_console m e :
  ReactionMenu.console (step m e) = ReactionMenu.console m ++ error_line e.
Proof.
  destruct e as [b|r| | |src|src|]; menu_cases m; menu_flags;
    rewrite ?app_nil_r; reflexivity.
Qed.

Lemma step_alive m e :
  alive (step m e) = alive m && negb (is_unmount e).
Proof.
  destruct e as [b|r| | |src|src|]; menu_cases m; menu_flags; reflexivity.
Qed.

Lemma settled_snoc es e :
  settled (es ++ [e]) = settled es + (if is_image_event e then 1 else 0).
Proof.
  unfold settled. rewrite filter_app, length_app. cbn [filter].
  destruct (is_image_event e); cbn [List.length]; lia.
Qed.

Lemma settled_nonneg es : 0 <= settled es.
Proof. unfold settled. lia. Qed.

Lemma run_loadedCount es rl o c :
  loadedCount (run es (ReactionMenu.mount rl o c)) = settled es.
Proof.
  induction es as [|e rest IH] using rev_ind.
  - unfold ReactionMenu.mount, open_effect, setMounted, set_close_timer.
    destruct o; reflexivity.
  - rewrite run_snoc, step_loadedCount, IH, settled_snoc. reflexivity.
Qed.

Lemma run_alive es : forall m,
  alive m = true -> forallb (fun e => negb (is_unmount e)) es = true ->
  alive (run es m) = true.
Proof.
  induction es as [|e rest IH]; intros m Ha Hes; [exact Ha|].
  cbn in Hes. apply andb_true_iff in Hes. destruct Hes as [He Hrest].
  apply IH; [|exact Hrest]. rewrite step_alive, Ha, He. reflexivity.
Qed.

Lemma mount_alive rl o c : alive (ReactionMenu.mount rl o c) = true.
Proof.
  unfold ReactionMenu.mount, open_effect, setMounted, set_close_timer.
  destruct o; reflexivity.
Qed.

Lemma step_fallback_timer m e :
  fallback_timer (step m e)
  = fallback_timer m && negb (is_unmount e) && negb (is_fallback e).
Proof.
  destruct e as [b|r| | |src|src|]; menu_cases m; menu_flags; reflexivity.
Qed.

Lemma run_fallback_timer es : forall m,
  fallback_timer m = true ->
  forallb (fun e => negb (is_unmount e) && negb (is_fallback e)) es = true ->
  fallback_timer (run es m) = true /\ alive (run es m) = alive m.
Proof.
  induction es as [|e rest IH]; intros m Hf Hes; [split; [exact Hf | reflexivity]|].
  cbn in Hes. apply andb_true_iff in Hes. destruct Hes as [He Hrest].
  apply andb_true_iff in He. destruct He as [Hu Hfb].
  destruct (IH (step m e)) as [H1 H2]; [|exact Hrest|].
  - rewrite step_fallback_timer, Hf, Hu, Hfb. reflexivity.
  - split; [exact H1|].
    change (run (e :: rest) m) with (run rest (step m e)).
    rewrite H2, step_alive, Hu, andb_true_r. reflexivity.
Qed.

(** The step that completes the count sets the flag. *)
Lemma step_completes_count m e :
  alive m = true -> is_image_event e = true ->
  loadedCount m + 1 = Z.of_nat (List.length (reactionsList m)) ->
  imagesLoaded (step m e) = true.
Proof.
  intros Ha He Hc.
  destruct e as [b|r| | |src|src|]; try discriminate He;
    menu_cases m; subst al; rewrite Hc, Z.eqb_refl; reflexivity.
Qed.

(** How the flag can become true in one step. *)
Lemma step_sets_imagesLoaded m e :
  imagesLoaded (step m e) = true ->
  imagesLoaded m = true
  \/ is_fallback e = true
  \/ (is_image_event e = true
      /\ loadedCount m + 1 = Z.of_nat (List.length (reactionsList m))).
Proof.
  destruct e as [b|r| | |src|src|]; menu_cases m;
    try (right; left; reflexivity);
    try (destruct (lc + 1 =? Z.of_nat (List.length rl_)) eqn:E;
         [ apply Z.eqb_eq in E; intros _; right; right; split;
           [reflexivity | exact E]
         | cbn; intros H; left; exact H ]);
    menu_flags; intros H; left; exact H.
Qed.

(** Out of the tree nothing moves any more. *)
Lemma step_dead m e :
  alive m = false -> close_timer m = false -> fallback_timer m = false ->
  alive (step m e) = false /\ close_timer (step m e) = false
  /\ fallback_timer (step m e) = false
  /\ mounted (step m e) = mounted m
  /\ imagesLoaded (step m e) = imagesLoaded m
  /\ ReactionMenu.render (step m e) = ReactionMenu.render m.
Proof.
  intros Ha Hc Hf.
  destruct e as [b|r| | |src|src|]; menu_cases m; subst al ct ft;
    unfold ReactionMenu.render; menu_flags; repeat split.
Qed.

Lemma filter_current_le_1 current (rl : list Reaction) :
  NoDup (map type rl) ->
  (List.length (filter (fun r => is_current current (type r)) rl) <= 1)%nat.
Proof.
  intros Hnd. induction rl as [|r rest IH]; cbn; [lia|].
  inversion Hnd as [|t ts Hnotin Hrest]; subst.
  specialize (IH Hrest).
  destruct (is_current current (type r)) eqn:E; [|lia].
  cbn [List.length].
  assert (filter (fun r0 => is_current current (type r0)) rest = []) as ->;
    [|cbn; lia].
  destruct current as [cur|]; [|discriminate E]. cbn in E.
  apply String.eqb_eq in E. subst cur.
  clear IH Hnd Hrest.
  induction rest as [|r' rest' IH']; [reflexivity|]. cbn.
  destruct (String.eqb (type r) (type r')) eqn:E'.
  - apply String.eqb_eq in E'. exfalso. apply Hnotin. left. symmetry. exact E'.
  - apply IH'. intros H. apply Hnotin. right. exact H.
Qed.

(** ** Showing and hiding *)

(** X13.  An open menu is on screen, opaque, with one button per reaction
    that hands the reaction's type to [onSelect]; no closing timer is
    pending, so a timer firing late cannot take it away. *)
Theorem open_menu_is_rendered rl o c es :
  alive (run es (ReactionMenu.mount rl o c)) = true ->
  isOpen (run es (ReactionMenu.mount rl o c)) = true ->
  close_timer (run es (ReactionMenu.mount rl o c)) = false
  /\ (exists buttons,
         ReactionMenu.render (run es (ReactionMenu.mount rl o c))
         = Some (true, buttons)
         /\ map on_click buttons = map type rl
         /\ map key buttons = map type rl)
  /\ ReactionMenu.render (step (run es (ReactionMenu.mount rl o c)) CloseTimer)
     = ReactionMenu.render (run es (ReactionMenu.mount rl o c)).
Proof.
  pose proof (run_timers_agree es (mount_timers_agree rl o c)) as Hinv.
  pose proof (run_reactionsList es (ReactionMenu.mount rl o c)) as Hrl.
  replace (reactionsList (ReactionMenu.mount rl o c)) with rl in Hrl
    by (unfold ReactionMenu.mount, open_effect, setMounted, set_close_timer;
        destruct o; reflexivity).
  set (m := run es (ReactionMenu.mount rl o c)) in *. clearbody m.
  intros Ha Ho.
  destruct Hinv as [Halive _]. destruct (Halive Ha) as [Hopen _].
  destruct (Hopen Ho) as [Hm Hc].
  split; [exact Hc|]. split.
  - unfold ReactionMenu.render. rewrite Hm, Ho, Hrl. cbn.
    eexists. split; [reflexivity|]. rewrite !map_map. split; reflexivity.
  - unfold step. rewrite Hc. reflexivity.
Qed.

Lemma open_menu_is_rendered_witness :
  exists buttons,
    ReactionMenu.render
      (run [SetIsOpen true; CloseTimer]
           (ReactionMenu.mount sample_reactions false None))
    = Some (true, buttons)
    /\ map on_click buttons = ["like"; "love"; "haha"].
Proof.
  destruct (@open_menu_is_rendered sample_reactions false None
              [SetIsOpen true; CloseTimer] eq_refl eq_refl)
    as (_ & (buttons & Hr & Hc & _) & _).
  exists buttons. split; [exact Hr | exact Hc].
Defined.

(** X14.  A closed menu with no timer pending is not rendered; closing the
    menu and letting the 200 ms timer fire always ends there. *)
Theorem closed_menu_goes_away rl o c es :
  alive (run es (ReactionMenu.mount rl o c)) = true ->
  (isOpen (run es (ReactionMenu.mount rl o c)) = false ->
   close_timer (run es (ReactionMenu.mount rl o c)) = false ->
   ReactionMenu.render (run es (ReactionMenu.mount rl o c)) = None)
  /\ ReactionMenu.render
       (run (es ++ [SetIsOpen false; CloseTimer]) (ReactionMenu.mount rl o c))
     = None.
Proof.
  pose proof (run_timers_agree es (mount_timers_agree rl o c)) as Hinv.
  rewrite run_app.
  set (m := run es (ReactionMenu.mount rl o c)) in *. clearbody m.
  intros Ha. destruct Hinv as [Halive _]. specialize (Halive Ha).
  destruct m as [rl_ op_ cr_ mo il lc ct ft al co].
  cbn in Ha, Halive. subst al.
  destruct op_, mo, ct; (split; [cbn; intuition congruence|]);
    try reflexivity; cbn in Halive; intuition congruence.
Qed.

Lemma closed_menu_goes_away_witness :
  ReactionMenu.render
    (run ([SetIsOpen true] ++ [SetIsOpen false; CloseTimer])
         (ReactionMenu.mount sample_reactions false None))
  = None.
Proof.
  exact (proj2 (@closed_menu_goes_away sample_reactions false None
                  [SetIsOpen true] eq_refl)).
Defined.

(** X15.  Closing an open menu leaves it on screen, transparent, until the
    timer fires; opening it again before that cancels the timer, and the
    timer firing afterwards changes nothing. *)
Theorem reopening_cancels_the_timer rl o c es :
  alive (run es (ReactionMenu.mount rl o c)) = true ->
  isOpen (run es (ReactionMenu.mount rl o c)) = true ->
  exists buttons,
    ReactionMenu.render (run es (ReactionMenu.mount rl o c))
    = Some (true, buttons)
    /\ ReactionMenu.render
         (run (es ++ [SetIsOpen false]) (ReactionMenu.mount rl o c))
       = Some (false, buttons)
    /\ ReactionMenu.render
         (run (es ++ [SetIsOpen false; SetIsOpen true; CloseTimer])
              (ReactionMenu.mount rl o c))
       = Some (true, buttons).
Proof.
  pose proof (run_timers_agree es (mount_timers_agree rl o c)) as Hinv.
  rewrite !run_app.
  set (m := run es (ReactionMenu.mount rl o c)) in *. clearbody m.
  intros Ha Ho.
  destruct Hinv as [Halive _]. destruct (Halive Ha) as [Hopen _].
  destruct (Hopen Ho) as [Hm Hc].
  destruct m as [rl_ op_ cr_ mo il lc ct ft al co].
  cbn in Ha, Ho, Hm, Hc. subst al op_ mo ct.
  exists (map (button cr_) rl_).
  split; [reflexivity|]. split; reflexivity.
Qed.

Lemma reopening_cancels_the_timer_witness :
  exists buttons,
    ReactionMenu.render
      (run ([] ++ [SetIsOpen false; SetIsOpen true; CloseTimer])
           (ReactionMenu.mount sample_reactions true (Some "love")))
    = Some (true, buttons)
    /\ map highlighted buttons = [false; true; false].
Proof.
  destruct (@reopening_cancels_the_timer sample_reactions true (Some "love") []
              eq_refl eq_refl) as (buttons & H0 & _ & H2).
  exists buttons. split; [exact H2|].
  vm_compute in H0. injection H0 as H0. rewrite <- H0. reflexivity.
Defined.

(** X16.  Unmounting clears both timers, and from then on no event -- a late
    timer, an image that settles, new props -- changes what the component
    holds or shows. *)
Theorem unmount_clears_timers rl o c es es' :
  close_timer (step (run es (ReactionMenu.mount rl o c)) Unmount) = false
  /\ fallback_timer (step (run es (ReactionMenu.mount rl o c)) Unmount) = false
  /\ mounted (run (es ++ Unmount :: es') (ReactionMenu.mount rl o c))
     = mounted (run es (ReactionMenu.mount rl o c))
  /\ imagesLoaded (run (es ++ Unmount :: es') (ReactionMenu.mount rl o c))
     = imagesLoaded (run es (ReactionMenu.mount rl o c))
  /\ ReactionMenu.render (run (es ++ Unmount :: es') (ReactionMenu.mount rl o c))
     = ReactionMenu.render (step (run es (ReactionMenu.mount rl o c)) Unmount).
Proof.
  pose proof (run_timers_agree es (mount_timers_agree rl o c)) as Hinv.
  rewrite run_app.
  set (m := run es (ReactionMenu.mount rl o c)) in *. clearbody m.
  change (run (Unmount :: es') m) with (run es' (step m Unmount)).
  assert (alive (step m Unmount) = false
          /\ close_timer (step m Unmount) = false
          /\ fallback_timer (step m Unmount) = false
          /\ mounted (step m Unmount) = mounted m
          /\ imagesLoaded (step m Unmount) = imagesLoaded m)
    as (Ha & Hc & Hf & Hm & Hi).
  { menu_cases m. destruct al, op_, ct; cbn in *; intuition congruence. }
  split; [exact Hc|]. split; [exact Hf|].
  rewrite <- Hm, <- Hi. clear Hm Hi Hinv.
  generalize dependent (step m Unmount). clear m.
  induction es' as [|e rest IH]; intros m Ha Hc Hf; [repeat split|].
  change (run (e :: rest) m) with (run rest (step m e)).
  destruct (step_dead m e Ha Hc Hf) as (Ha' & Hc' & Hf' & Hm' & Hi' & Hr').
  destruct (IH (step m e) Ha' Hc' Hf') as (H1 & H2 & H3).
  rewrite H1, H2, H3. repeat split; assumption.
Qed.

(** ** Preloading the images *)

(** X17.  The counter of the preload effect is the number of images that
    have settled, loaded or failed alike, and the console has one line for
    every failure, in order. *)
Theorem preload_counts_every_image rl o c es :
  loadedCount (run es (ReactionMenu.mount rl o c)) = settled es
  /\ ReactionMenu.console (run es (ReactionMenu.mount rl o c))
     = flat_map error_line es.
Proof.
  split; [apply run_loadedCount|].
  induction es as [|e rest IH] using rev_ind.
  - unfold ReactionMenu.mount, open_effect, setMounted, set_close_timer.
    destruct o; reflexivity.
  - rewrite run_snoc, step_console, IH, flat_map_app. cbn.
    rewrite app_nil_r. reflexivity.
Qed.

(** X18.  Once every image of a non-empty list has settled, loaded or
    failed, the component has [imagesLoaded], as long as it was not
    unmounted on the way. *)
Theorem preload_completes rl o c es :
  rl <> [] ->
  forallb (fun e => negb (is_unmount e)) es = true ->
  Z.of_nat (List.length rl) <= settled es ->
  imagesLoaded (run es (ReactionMenu.mount rl o c)) = true.
Proof.
  intros Hrl. induction es as [|e rest IH] using rev_ind; intros Hes Hn.
  - unfold settled in Hn. cbn in Hn. destruct rl; [contradiction | cbn in Hn; lia].
  - rewrite forallb_app in Hes. apply andb_true_iff in Hes.
    destruct Hes as [Hrest He].
    rewrite run_snoc.
    destruct (Z.le_gt_cases (Z.of_nat (List.length rl)) (settled rest)) as [Hge | Hlt].
    + apply step_imagesLoaded_stays, IH; assumption.
    + rewrite settled_snoc in Hn.
      destruct (is_image_event e) eqn:Eimg; [|lia].
      apply step_completes_count.
      * apply run_alive; [apply mount_alive | exact Hrest].
      * exact Eimg.
      * rewrite run_loadedCount, run_reactionsList.
        replace (reactionsList (ReactionMenu.mount rl o c)) with rl
          by (unfold ReactionMenu.mount, open_effect, setMounted,
                set_close_timer; destruct o; reflexivity).
        lia.
Qed.

Lemma preload_completes_witness :
  imagesLoaded
    (run [ImageLoad "/emojis/love.png"; ImageError "/emojis/haha.png";
          SetIsOpen true; ImageLoad "/emojis/like.png"]
         (ReactionMenu.mount sample_reactions false None)) = true.
Proof.
  apply preload_completes; [discriminate | reflexivity | vm_compute; discriminate].
Defined.

(** X19.  The 2000 ms fallback settles the matter whatever the images did:
    when it fires on a component still in the tree, [imagesLoaded] is true
    from then on. *)
Theorem fallback_completes rl o c es es' :
  forallb (fun e => negb (is_unmount e) && negb (is_fallback e)) es = true ->
  imagesLoaded (run (es ++ FallbackTimer :: es') (ReactionMenu.mount rl o c))
  = true.
Proof.
  intros Hes. rewrite run_app.
  change (run (FallbackTimer :: es') ?m) with (run es' (step m FallbackTimer)).
  apply run_imagesLoaded_stays.
  destruct (@run_fallback_timer es (ReactionMenu.mount rl o c)) as [Hf Ha];
    [|exact Hes|].
  - unfold ReactionMenu.mount, open_effect, setMounted, set_close_timer.
    destruct o; reflexivity.
  - rewrite mount_alive in Ha.
    set (m := run es (ReactionMenu.mount rl o c)) in *. clearbody m.
    menu_cases m. subst ft al. reflexivity.
Qed.

Lemma fallback_completes_witness :
  imagesLoaded
    (run ([ImageError "/emojis/like.png"] ++ FallbackTimer :: [])
         (ReactionMenu.mount sample_reactions true None)) = true.
Proof. apply fallback_completes. reflexivity. Defined.

(** X20.  [imagesLoaded] is never set early and never by anything else:
    when it is true, the fallback timer has fired or as many images have
    settled as the list is long, the list not being empty.  With an empty
    list only the fallback can set it. *)
Theorem imagesLoaded_has_a_cause rl o c es :
  imagesLoaded (run es (ReactionMenu.mount rl o c)) = true ->
  In FallbackTimer es
  \/ (rl <> [] /\ Z.of_nat (List.length rl) <= settled es).
Proof.
  induction es as [|e rest IH] using rev_ind; intros H.
  - unfold ReactionMenu.mount, open_effect, setMounted, set_close_timer in H.
    destruct o; discriminate H.
  - rewrite run_snoc in H.
    destruct (step_sets_imagesLoaded _ _ H) as [Hb | [Hf | [Himg Hc]]].
    + destruct (IH Hb) as [Hin | [Hrl Hn]].
      * left. apply in_or_app. left. exact Hin.
      * right. split; [exact Hrl|]. rewrite settled_snoc.
        destruct (is_image_event e); lia.
    + left. apply in_or_app. right. left.
      destruct e; try discriminate Hf. reflexivity.
    + right. rewrite run_loadedCount, run_reactionsList in Hc.
      replace (reactionsList (ReactionMenu.mount rl o c)) with rl in Hc
        by (unfold ReactionMenu.mount, open_effect, setMounted,
              set_close_timer; destruct o; reflexivity).
      rewrite settled_snoc, Himg.
      pose proof (settled_nonneg rest).
      split; [|lia].
      intros ->. cbn in Hc. lia.
Qed.

Lemma imagesLoaded_has_a_cause_witness :
  In FallbackTimer [ImageLoad "a"; ImageLoad "b"; FallbackTimer]
  \/ (@nil Reaction <> [] /\ Z.of_nat (List.length (@nil Reaction))
                            <= settled [ImageLoad "a"; ImageLoad "b"; FallbackTimer]).
Proof.
  apply (@imagesLoaded_has_a_cause [] false None
           [ImageLoad "a"; ImageLoad "b"; FallbackTimer]).
  reflexivity.
Defined.

(** ** The buttons *)

(** X21.  A button is highlighted exactly when its type is the current
    reaction.  Without a current reaction none is; when the types of the
    list are distinct at most one is. *)
Theorem at_most_one_highlight m visible buttons :
  ReactionMenu.render m = Some (visible, buttons) ->
  Forall (fun btn => highlighted btn = true
                     <-> currentReaction m = Some (on_click btn)) buttons
  /\ (currentReaction m = None -> filter highlighted buttons = [])
  /\ (NoDup (map type (reactionsList m)) ->
      (List.length (filter highlighted buttons) <= 1)%nat).
Proof.
  unfold ReactionMenu.render. destruct (negb (mounted m)); [discriminate|].
  intros H. injection H as _ <-.
  split; [|split].
  - apply Forall_forall. intros btn Hb. apply in_map_iff in Hb.
    destruct Hb as (r & <- & _). cbn.
    destruct (currentReaction m) as [cur|]; cbn.
    + rewrite String.eqb_eq. split; [intros ->; reflexivity|].
      intros E. injection E as E. exact E.
    + split; discriminate.
  - intros ->. induction (reactionsList m) as [|r rest IH]; [reflexivity|].
    cbn. exact IH.
  - intros Hnd.
    pose proof (filter_current_le_1 (currentReaction m) (reactionsList m) Hnd)
      as Hle.
    assert (forall l : list Reaction,
               List.length (filter highlighted
                                   (map (button (currentReaction m)) l))
               = List.length (filter (fun r => is_current (currentReaction m)
                                                          (type r)) l)) as Heq.
    { induction l as [|r rest IH]; [reflexivity|]. cbn.
      destruct (is_current (currentReaction m) (type r)); cbn; rewrite IH;
        reflexivity. }
    rewrite Heq. exact Hle.
Qed.

Lemma at_most_one_highlight_witness :
  exists buttons,
    ReactionMenu.render (ReactionMenu.mount sample_reactions true (Some "haha"))
    = Some (true, buttons)
    /\ map highlighted buttons = [false; false; true]
    /\ (List.length (filter highlighted buttons) <= 1)%nat.
Proof.
  eexists. split; [reflexivity|]. split; [reflexivity|].
  refine (proj2 (proj2 (@at_most_one_highlight
                          (ReactionMenu.mount sample_reactions true (Some "haha"))
                          true _ eq_refl)) _).
  repeat constructor; cbn; intuition discriminate.
Defined.

End MenuFacts.

(** * The order of the list on a host that cannot read a time of day *)


